(** * Vechnost API: orders, payments, ranking and administration

    A shallow embedding of [src/main.py] (the handlers [create_order],
    [payment_webhook], [calc_total], [top_ranking], [login],
    [check_game_id], [admin_overview] and the four delete routes) and
    of the schemas of [src/schemas.py] they use.

    - Python [float] is IEEE binary64: the primitive floats of the
      Standard Library.  [round(x, 2)] and [float * int] are written
      out on the exact value of the float.
    - The document store ([db], a MongoDB database) is a record of
      collections, each a list of documents in natural order.  The
      handlers run in a state-and-exception monad over it: a raised
      exception keeps the writes made before it.
    - [ObjectId(s)] takes what [bytes.fromhex] reads of a string of 24
      characters; [insert_one] refuses an [int] of more than 8 bytes.
    - How the store adds doubles up and in which order it sorts rows
      with equal keys are left to the store: the ranking is stated for
      every [Summation] and every [Sorting].
    - [datetime.now] is an input of the handlers that read the clock. *)

From Stdlib Require Import ZArith NArith Uint63 Floats Bool Ascii String List Sorted Lia.
From stdpp Require Import base option list sorting strings.

Local Open Scope Z_scope.

(** ** Python values *)

(** Truth value of an [Optional[str]]: [None] and [""] are falsy. *)
Definition truthy (s : option string) : bool :=
  match s with
  | Some s => negb (String.eqb s "")
  | None => false
  end.

(** [a or b] on optional strings. *)
Definition py_or (a b : option string) : option string :=
  if truthy a then a else b.

(** *** Floats *)

(** Nearest integer to [a / b], ties to the even one ([0 <= a], [0 < b]). *)
Definition round_half_even_div (a b : Z) : Z :=
  let (q, r) := Z.div_eucl a b in
  match 2 * r ?= b with
  | Lt => q
  | Gt => q + 1
  | Eq => if Z.even q then q else q + 1
  end.

(** The number of hundredths nearest to [m * 2^e], ties to even. *)
Definition hundredths (m : positive) (e : Z) : Z :=
  if 0 <=? e then Z.pos m * 2 ^ e * 100
  else round_half_even_div (Z.pos m * 100) (2 ^ (- e)).

(** [round(x, 2)] on a float: the exact value of [x] is rounded to two
    decimals (ties to even), and the float nearest to that decimal is
    returned.  Zeros, infinities and NaN round to themselves. *)
Definition round2 (x : float) : float :=
  match Prim2SF x with
  | S754_finite s m e =>
      match hundredths m e with
      | Z.pos n => SF2Prim (SFdiv prec emax (S754_finite s n 0) (S754_finite false 100 0))
      | _ => if s then (-0)%float else 0%float
      end
  | _ => x
  end.

(** ** Exceptions and the handler monad *)

Inductive Exception :=
| HTTPException (status_code : Z) (detail : string)
| RequestValidationError
| OverflowError
| OperationFailure.

Inductive result (A : Type) :=
| Ok (a : A)
| Raise (e : Exception).
Arguments Ok {A} a.
Arguments Raise {A} e.

(** Conversion of the [int] operand of [float * int]: the nearest float,
    [OverflowError] when the integer is too large for one. *)
Definition float_of_int (n : Z) : result float :=
  let f := SF2Prim (binary_normalize prec emax n 0 false) in
  if is_infinity f then Raise OverflowError else Ok f.

(** ** Object ids *)

(** An [ObjectId] is a string of bytes: twelve in every id a store hands
    out, which is then the number its 24 hexadecimal digits write, below
    [2 ^ 96].  [ObjectId(s)] also takes strings that give fewer bytes;
    the numbers from [2 ^ 96] on stand for these. *)
Definition ObjectId := N.

Definition hex_digit (c : ascii) : option N :=
  let n := N_of_ascii c in
  if (48 <=? n)%N && (n <=? 57)%N then Some (n - 48)%N
  else if (97 <=? n)%N && (n <=? 102)%N then Some (n - 87)%N
  else if (65 <=? n)%N && (n <=? 70)%N then Some (n - 55)%N
  else None.

(** The white space [bytes.fromhex] skips: space, tab, line feed,
    vertical tab, form feed and carriage return. *)
Definition hex_space (c : ascii) : bool :=
  let n := N_of_ascii c in
  ((9 <=? n)%N && (n <=? 13)%N) || (n =? 32)%N.

(** [bytes.fromhex(s)]: white space is skipped before a byte, and a byte
    is two hexadecimal digits side by side.  [top] is the first digit
    of a byte when the second is due; the result is the number of bytes
    and the number they write, [None] for [ValueError]. *)
Fixpoint fromhex (top : option N) (len : nat) (acc : N) (s : string) : option (nat * N) :=
  match s with
  | EmptyString =>
      match top with
      | None => Some (len, acc)
      | Some _ => None
      end
  | String c s' =>
      match top with
      | None =>
          if hex_space c then fromhex None len acc s'
          else match hex_digit c with
               | Some d => fromhex (Some d) len acc s'
               | None => None
               end
      | Some t =>
          match hex_digit c with
          | Some d => fromhex None (S len) (256 * acc + 16 * t + d)%N s'
          | None => None
          end
      end
  end.

(** The id of [len] bytes, at most twelve, that write the number [v]. *)
Definition ObjectId_of_bytes (len : nat) (v : N) : ObjectId :=
  (N.of_nat (12 - len) * 2 ^ 96 + v)%N.

(** [ObjectId(s)]: a string of 24 characters that [bytes.fromhex]
    takes; [None] stands for [InvalidId]. *)
Definition ObjectId_of_str (s : string) : option ObjectId :=
  if (String.length s =? 24)%nat
  then (λ b, ObjectId_of_bytes b.1 b.2) <$> fromhex None 0 0%N s
  else None.

Definition hex_char (d : N) : ascii :=
  if (d <? 10)%N then ascii_of_N (48 + d) else ascii_of_N (87 + d).

Fixpoint hex_str (n : nat) (v : N) (acc : string) : string :=
  match n with
  | O => acc
  | S n' => hex_str n' (v / 16)%N (String (hex_char (v mod 16)%N) acc)
  end.

(** [str(oid)] *)
Definition str_ObjectId (i : ObjectId) : string := hex_str 24 i "".

(** The id a collection gives a new document: one no document has. *)
Definition new_ObjectId (ids : list ObjectId) : ObjectId :=
  N.succ (foldr N.max 0%N ids).

(** ** Schemas ([src/schemas.py]) and stored documents *)

Inductive Status := pending | paid | processing | success | failed | refunded.
Inductive Provider := vip | digiflazz | manual.
Inductive Gateway := tripay | tokopay | manual_gateway.
Inductive ProductType :=
| game_topup | pulsa | data | joki_ml | joki_roblox | voucher | premium_account.
Inductive Level := guest | member | level_vip | admin.
Inductive DepositStatus := deposit_pending | deposit_paid | deposit_failed.

Definition str_Gateway (g : Gateway) : string :=
  match g with
  | tripay => "tripay"
  | tokopay => "tokopay"
  | manual_gateway => "manual"
  end.

Definition datetime := Z.

Module User.
Record t := mk {
    _id : ObjectId; name : string; email : string; password_hash : string;
    phone : option string; level : Level; is_active : bool }.
End User.

Module Category.
Record t := mk {
    _id : ObjectId; name : string; slug : string;
    description : option string; rank : Z }.
End Category.

Module Product.
Record t := mk {
    _id : ObjectId; title : string; description : option string;
    price : float; category_id : option string; type : ProductType;
    provider : option Provider; is_active : bool; tags : list string }.
End Product.

Module PaymentMethod.
Record t := mk {
    _id : ObjectId; name : string; code : string; gateway : option Gateway;
    fee_percent : float; fee_flat : float; is_active : bool }.
End PaymentMethod.

(** The request body of [POST /api/orders] after validation. *)
Module Order.
Record t := mk {
    user_id : option string; product_id : string; amount : Z;
    target_id : option string; status : Status; provider : option Provider;
    payment_method_code : option string; payment_reference : option string;
    payment_url : option string; total_price : float; note : option string }.

(** [amount: int = Field(1, ge=1)], the one constraint of the model. *)
Definition valid (o : t) : bool := 1 <=? amount o.
End Order.

(** A document of the [order] collection: [Order.model_dump()] with the
    timestamps and the store's [_id]. *)
Module OrderDoc.
Record t := mk {
    _id : ObjectId;
    user_id : option string; product_id : string; amount : Z;
    target_id : option string; status : Status; provider : option Provider;
    payment_method_code : option string; payment_reference : option string;
    payment_url : option string; total_price : float; note : option string;
    created_at : datetime; updated_at : datetime }.

(** [{"$set": {"payment_url": u}}] *)
Definition set_payment_url (u : string) (d : t) : t :=
    mk (_id d) (user_id d) (product_id d) (amount d) (target_id d) (status d)
       (provider d) (payment_method_code d) (payment_reference d) (Some u)
       (total_price d) (note d) (created_at d) (updated_at d).

(** [{"$set": {"status": s, "updated_at": now}}] *)
Definition set_status (s : Status) (now : datetime) (d : t) : t :=
    mk (_id d) (user_id d) (product_id d) (amount d) (target_id d) s
       (provider d) (payment_method_code d) (payment_reference d) (payment_url d)
       (total_price d) (note d) (created_at d) now.

Definition set_updated_at (now : datetime) (d : t) : t :=
    mk (_id d) (user_id d) (product_id d) (amount d) (target_id d) (status d)
       (provider d) (payment_method_code d) (payment_reference d) (payment_url d)
       (total_price d) (note d) (created_at d) now.
End OrderDoc.

Module Rating.
Record t := mk {
    _id : ObjectId; user_id : option string; product_id : string;
    stars : Z; comment : option string }.
End Rating.

Module Deposit.
Record t := mk {
    _id : ObjectId; user_id : string; amount : float; status : DepositStatus;
    method_code : option string; reference : option string }.
End Deposit.

Module ProviderConfig.
Record t := mk {
    _id : ObjectId; name : Provider; api_key : string;
    api_secret : option string; active : bool }.
End ProviderConfig.

(** ** The document store *)

Record DB := mkDB {
  user : list User.t;
  category : list Category.t;
  product : list Product.t;
  paymentmethod : list PaymentMethod.t;
  order : list OrderDoc.t;
  rating : list Rating.t;
  deposit : list Deposit.t;
  providerconfig : list ProviderConfig.t }.

Definition with_order (f : list OrderDoc.t → list OrderDoc.t) (db : DB) : DB :=
  mkDB (user db) (category db) (product db) (paymentmethod db) (f (order db))
       (rating db) (deposit db) (providerconfig db).

(** A handler: it reads and writes the store and returns or raises. *)
Definition M (A : Type) : Type := DB → result A * DB.

Definition ret {A} (a : A) : M A := λ db, (Ok a, db).
Definition raise {A} (e : Exception) : M A := λ db, (Raise e, db).
Definition bind {A B} (m : M A) (k : A → M B) : M B :=
  λ db, match m db with
        | (Ok a, db') => k a db'
        | (Raise e, db') => (Raise e, db')
        end.
Definition lift {A} (r : result A) : M A := λ db, (r, db).
Definition reads {A} (f : DB → A) : M A := λ db, (Ok (f db), db).
Definition writes (f : DB → DB) : M unit := λ db, (Ok tt, f db).
(** [try: m  except Exception: h] *)
Definition try_except {A} (m : M A) (h : M A) : M A :=
  λ db, match m db with
        | (Ok a, db') => (Ok a, db')
        | (Raise _, db') => h db'
        end.

Notation "x <- m ;; k" := (bind m (λ x, k))
  (at level 100, m at next level, right associativity).
Notation "m ;;; k" := (bind m (λ _, k))
  (at level 100, right associativity).

(** ** Collection operations *)

(** [find_one(filter)]: the first document the filter matches. *)
Definition find_one {A} (P : A → Prop) `{∀ x, Decision (P x)} (c : list A) : option A :=
  snd <$> list_find P c.

(** An [int] the driver can encode: one of at most 8 bytes. *)
Definition int64 (n : Z) : bool := (- 2 ^ 63 <=? n) && (n <? 2 ^ 63).

(** [insert_one(doc)]: the collection gives the document its [_id] and
    appends it; the id is returned ([inserted_id]).  The driver encodes
    the document first, and raises [OverflowError] on an [int] of more
    than 8 bytes; [amount] is the one [int] of an order. *)
Definition insert_one_order (doc : ObjectId → OrderDoc.t) : M ObjectId :=
  λ db, let i := new_ObjectId (OrderDoc._id <$> order db) in
        if int64 (OrderDoc.amount (doc i))
        then (Ok i, with_order (λ c, c ++ [doc i]) db)
        else (Raise OverflowError, db).

(** [update_one({"_id": i}, {"$set": ...})]: the first document with that
    id is changed in place; nothing happens when there is none. *)
Definition update_one_order (i : ObjectId) (f : OrderDoc.t → OrderDoc.t) : M unit :=
  writes (with_order (λ c,
    match list_find (λ d, OrderDoc._id d = i) c with
    | Some (k, _) => alter f k c
    | None => c
    end)).

(** ** Helpers of [src/main.py] *)

(** [oid(s)] *)
Definition oid (s : string) : result ObjectId :=
  match ObjectId_of_str s with
  | Some i => Ok i
  | None => Raise (HTTPException 400 "Invalid id")
  end.

(** [x * n] for a float [x] and an int [n]. *)
Definition float_mul_int (x : float) (n : Z) : result float :=
  match float_of_int n with
  | Ok a => Ok (x * a)%float
  | Raise e => Raise e
  end.

(** [base + base * fee_percent / 100.0 + fee_flat] *)
Definition with_fee (base fee_percent fee_flat : float) : float :=
  (base + base * fee_percent / 100 + fee_flat)%float.

(** ** [POST /api/orders] *)

Module OrderOut.
Record t := mk { id : string; payment_url : option string; total_price : float }.
End OrderOut.

(** [db["paymentmethod"].find_one({"code": code, "is_active": True})]
    under [if order.payment_method_code:]; [None] when the code is
    falsy or no active method has it. *)
Definition active_method (code : option string) (db : DB) : option PaymentMethod.t :=
  if truthy code
  then find_one
         (λ m, Some (PaymentMethod.code m) = code ∧ PaymentMethod.is_active m = true)
         (paymentmethod db)
  else None.

(** [total]: the base, with the fee of the payment method when one is
    found. *)
Definition order_total (base : float) (pm : option PaymentMethod.t) : float :=
  match pm with
  | Some pm => with_fee base (PaymentMethod.fee_percent pm) (PaymentMethod.fee_flat pm)
  | None => base
  end.

(** [order.model_dump()] updated with the five server-side fields. *)
Definition order_payload (order : Order.t) (prod : Product.t) (total : float)
    (created updated : datetime) (i : ObjectId) : OrderDoc.t :=
  OrderDoc.mk i
    (Order.user_id order) (Order.product_id order) (Order.amount order)
    (Order.target_id order)
    pending
    (Some (match Order.provider order with
           | Some p => p
           | None => match Product.provider prod with
                     | Some p => p
                     | None => manual
                     end
           end))
    (Order.payment_method_code order) (Order.payment_reference order)
    (Order.payment_url order)
    (round2 total)
    (Order.note order) created updated.

Definition mock_gateway (pm : option PaymentMethod.t) : option Gateway :=
  match pm with
  | Some pm =>
      match PaymentMethod.gateway pm with
      | Some tripay => Some tripay
      | Some tokopay => Some tokopay
      | _ => None
      end
  | None => None
  end.

(** [create_order]; [created] and [updated] are what the two calls of
    [datetime.now] return. *)
Definition create_order (created updated : datetime) (order : Order.t) : M OrderOut.t :=
  pid <- lift (oid (Order.product_id order)) ;;
  prod <- reads (λ db, find_one (λ p, Product._id p = pid) (product db)) ;;
  match prod with
  | None => raise (HTTPException 404 "Product not found")
  | Some prod =>
      base <- lift (float_mul_int (Product.price prod) (Order.amount order)) ;;
      pm <- reads (active_method (Order.payment_method_code order)) ;;
      let total := order_total base pm in
      order_id <- insert_one_order (order_payload order prod total created updated) ;;
      pay_url <-
        match mock_gateway pm with
        | Some g =>
            let pay_url :=
              ("https://pay.mock/" ++ str_Gateway g ++ "/" ++ str_ObjectId order_id)%string in
            update_one_order order_id (OrderDoc.set_payment_url pay_url) ;;;
            ret (Some pay_url)
        | None => ret None
        end ;;
      ret (OrderOut.mk (str_ObjectId order_id) pay_url (round2 total))
  end.

(** The JSON body of the request: the fields of the [Order] model and,
    of the keys the model does not have, the two that bear the names of
    the timestamps of a stored order. *)
Module OrderBody.
Record t := mk {
    fields : Order.t; created_at : option datetime; updated_at : option datetime }.
End OrderBody.

(** The route: the body is validated against [Order], which drops the
    keys the model does not have, and handed to [create_order]. *)
Definition post_orders (created updated : datetime) (body : OrderBody.t) : M OrderOut.t :=
  if Order.valid (OrderBody.fields body)
  then create_order created updated (OrderBody.fields body)
  else raise RequestValidationError.

(** ** [POST /api/payment/{tripay,tokopay}/webhook] *)

Inductive WebhookStatus := webhook_paid | webhook_failed | webhook_pending.

Definition Status_of_webhook (s : WebhookStatus) : Status :=
  match s with
  | webhook_paid => paid
  | webhook_failed => failed
  | webhook_pending => pending
  end.

Module WebhookIn.
Record t := mk { reference : option string; status : WebhookStatus }.
End WebhookIn.

(** [payment_webhook]; [query_reference] is
    [request.query_params.get("reference")] and [now] the clock. *)
Definition payment_webhook (now : datetime) (payload : WebhookIn.t)
    (query_reference : option string) : M bool :=
  match py_or (WebhookIn.reference payload) query_reference with
  | None => raise (HTTPException 400 "Missing reference")
  | Some ref =>
      if String.eqb ref "" then raise (HTTPException 400 "Missing reference")
      else
        found <- reads (λ db, find_one (λ d, OrderDoc.payment_reference d = Some ref)
                                (order db)) ;;
        found <-
          match found with
          | Some o => ret (Some o)
          | None =>
              try_except
                (i <- lift (oid ref) ;;
                 reads (λ db, find_one (λ d, OrderDoc._id d = i) (order db)))
                (ret None)
          end ;;
        match found with
        | None => raise (HTTPException 404 "Order not found")
        | Some o =>
            update_one_order (OrderDoc._id o)
              (OrderDoc.set_status (Status_of_webhook (WebhookIn.status payload)) now) ;;;
            ret true
        end
  end.

(** ** [POST /api/tools/calc] *)

Module CalcIn.
Record t := mk { price : float; amount : Z; fee_percent : float; fee_flat : float }.
End CalcIn.

Module CalcOut.
Record t := mk { base : float; total : float }.
End CalcOut.

Definition calc_total (payload : CalcIn.t) : result CalcOut.t :=
  match float_mul_int (CalcIn.price payload) (CalcIn.amount payload) with
  | Ok base =>
      let total := with_fee base (CalcIn.fee_percent payload) (CalcIn.fee_flat payload) in
      Ok (CalcOut.mk (round2 base) (round2 total))
  | Raise e => Raise e
  end.

(** ** [GET /api/top] *)

(** How the store adds doubles up under [{"$sum": ...}] is the store's
    own: it feeds the values, in the order it reads the documents, to
    an accumulator and hands out the result. *)
Class Summation := {
  sum_state : Type;
  sum_init : sum_state;
  sum_add : sum_state → float → sum_state;
  sum_result : sum_state → float }.

(** IEEE addition from 0, the summation the examples run on. *)
Definition ieee_sum : Summation :=
  {| sum_state := float;
     sum_init := 0%float;
     sum_add := λ a x, (a + x)%float;
     sum_result := λ a, a |}.

(** A row of the [$group] stage: [_id] is the product id of the group,
    [revenue] the accumulator while documents are read and a double in
    the rows the stage hands on. *)
Module Group.
Record t (S : Type) := mk { _id : string; orders : Z; revenue : S }.
Arguments mk {S} _ _ _.
Arguments _id {S} _.
Arguments orders {S} _.
Arguments revenue {S} _.
End Group.

Module TopEntry.
Record t := mk {
    product_id : string; product_title : option string;
    orders : Z; revenue : float }.
End TopEntry.

(** [{"$sort": {"orders": -1}}] *)
Definition orders_desc (g h : Group.t float) : Prop := Group.orders h ≤ Group.orders g.

#[global] Instance orders_desc_dec g h : Decision (orders_desc g h).
Proof. unfold orders_desc. apply _. Defined.

(** In which order the store hands on rows of equal [orders] is the
    store's own as well, and may change with the [$limit] that follows
    the [$sort]: what the stage makes of the rows under a limit is some
    arrangement of them in descending order. *)
Class Sorting := {
  sort_rows : Z → list (Group.t float) → list (Group.t float);
  sort_rows_Permutation limit gs : sort_rows limit gs ≡ₚ gs;
  sort_rows_Sorted limit gs : Sorted orders_desc (sort_rows limit gs) }.

#[global] Instance orders_desc_total : Total orders_desc.
Proof. intros g h. unfold orders_desc. lia. Qed.

(** A stable sort whatever the limit, the sorting the examples run on. *)
Definition merge_sorting : Sorting :=
  {| sort_rows := λ _, merge_sort orders_desc;
     sort_rows_Permutation := λ _, merge_sort_Permutation orders_desc;
     sort_rows_Sorted := λ _, Sorted_merge_sort orders_desc |}.

(** [{"$limit": limit}]: the driver sends 64-bit integers only, and the
    store takes a positive limit only. *)
Definition limit_stage (limit : Z) (gs : list (Group.t float)) : result (list (Group.t float)) :=
  if (2 ^ 63 <=? limit) || (limit <? - 2 ^ 63) then Raise OverflowError
  else if limit <=? 0 then Raise OperationFailure
  else Ok (take (Z.to_nat limit) gs).

(** [float(x or 0)] for a float [x]: both zeros are falsy. *)
Definition float_or_0 (x : float) : float :=
  if (x =? 0)%float then 0%float else x.

(** [for x in l: out.append(f(x))] *)
Fixpoint for_each {A B} (f : A → M B) (l : list A) : M (list B) :=
  match l with
  | [] => ret []
  | x :: l' => y <- f x ;; ys <- for_each f l' ;; ret (y :: ys)
  end.

(** The body of the loop of [top_ranking]. *)
Definition top_entry (r : Group.t float) : M TopEntry.t :=
  prod <- (if truthy (Some (Group._id r))
           then i <- lift (oid (Group._id r)) ;;
                reads (λ db, find_one (λ p, Product._id p = i) (product db))
           else ret None) ;;
  ret (TopEntry.mk (Group._id r) (Product.title <$> prod) (Group.orders r)
                   (round2 (float_or_0 (Group.revenue r)))).

(** The stored orders of a product, in natural order, whatever their
    status. *)
Definition orders_of (pid : string) (c : list OrderDoc.t) : list OrderDoc.t :=
  filter (λ o, OrderDoc.product_id o = pid) c.


(** The entry the loop makes of a row whose id is well-formed. *)
Definition entry_of (db : DB) (r : Group.t float) : TopEntry.t :=
  TopEntry.mk (Group._id r)
    (Product.title <$>
       find_one (λ p, Some (Product._id p) = ObjectId_of_str (Group._id r)) (product db))
    (Group.orders r)
    (round2 (float_or_0 (Group.revenue r))).

(** An order whose product id [oid] rejects: [create_order] stores none. *)
Definition malformed_product_id (o : OrderDoc.t) : Prop :=
  OrderDoc.product_id o ≠ ""%string ∧ ObjectId_of_str (OrderDoc.product_id o) = None.

Section aggregate.
Context {Σ : Summation} {Ω : Sorting}.

(** [{"$group": {"_id": "$product_id", "orders": {"$sum": 1},
                 "revenue": {"$sum": "$total_price"}}}] on one more
    document: its group is updated, or opened after the others. *)
Fixpoint group_add (o : OrderDoc.t) (gs : list (Group.t sum_state)) :
    list (Group.t sum_state) :=
  match gs with
  | [] => [Group.mk (OrderDoc.product_id o) 1 (sum_add sum_init (OrderDoc.total_price o))]
  | g :: gs' =>
      if decide (Group._id g = OrderDoc.product_id o)
      then Group.mk (Group._id g) (Group.orders g + 1)
                    (sum_add (Group.revenue g) (OrderDoc.total_price o)) :: gs'
      else g :: group_add o gs'
  end.

(** The row handed on once every document is read. *)
Definition group_result (g : Group.t sum_state) : Group.t float :=
  Group.mk (Group._id g) (Group.orders g) (sum_result (Group.revenue g)).

Definition group_stage (c : list OrderDoc.t) : list (Group.t float) :=
  group_result <$> foldl (λ gs o, group_add o gs) [] c.

(** [{"$sort": {"orders": -1}}] before [{"$limit": limit}] *)
Definition sort_stage (limit : Z) (gs : list (Group.t float)) : list (Group.t float) :=
  sort_rows limit gs.

(** [list(db["order"].aggregate(pipeline))] *)
Definition aggregate_order (limit : Z) : M (list (Group.t float)) :=
  λ db, (limit_stage limit (sort_stage limit (group_stage (order db))), db).

(** [top_ranking(limit: int = 10)]; [None] is a request without the
    query parameter. *)
Definition top_ranking (limit : option Z) : M (list TopEntry.t) :=
  let limit := default 10 limit in
  res <- aggregate_order limit ;;
  for_each top_entry res.

(** The sum of the [total_price] of the orders of a product, as the
    store adds them up. *)
Definition revenue_state (pid : string) (c : list OrderDoc.t) : sum_state :=
  foldl (λ a o, sum_add a (OrderDoc.total_price o)) sum_init (orders_of pid c).

Definition revenue_of (pid : string) (c : list OrderDoc.t) : float :=
  sum_result (revenue_state pid c).

(** The row of a product while the documents [c] are read. *)
Definition group_of (pid : string) (c : list OrderDoc.t) : Group.t sum_state :=
  Group.mk pid (Z.of_nat (length (orders_of pid c))) (revenue_state pid c).

(** What holds of the rows once the documents [c] are read. *)
Record grouped (c : list OrderDoc.t) (gs : list (Group.t sum_state)) : Prop := {
  grouped_NoDup : NoDup (Group._id <$> gs);
  grouped_sound : ∀ g, g ∈ gs → g = group_of (Group._id g) c ∧ orders_of (Group._id g) c ≠ [];
  grouped_complete : ∀ o, o ∈ c → OrderDoc.product_id o ∈ Group._id <$> gs }.

End aggregate.

(** ** The outcome of [create_order], in closed form *)

(** The url of the mock payment page ([pay_url]). *)
Definition mock_url (pm : option PaymentMethod.t) (i : ObjectId) : option string :=
  (λ g, "https://pay.mock/" ++ str_Gateway g ++ "/" ++ str_ObjectId i)%string
    <$> mock_gateway pm.

(** The document of the new order once both writes are done. *)
Definition stored_order (req : Order.t) (prod : Product.t) (total : float)
    (created updated : datetime) (url : option string) (i : ObjectId) : OrderDoc.t :=
  match url with
  | Some u => OrderDoc.set_payment_url u (order_payload req prod total created updated i)
  | None => order_payload req prod total created updated i
  end.

(** ** The outcome of [payment_webhook], in closed form *)

(** The order a reference matches: the first with that
    [payment_reference]; failing that, the one with that id. *)
Definition match_order (ref : string) (db : DB) : option OrderDoc.t :=
  match find_one (λ d, OrderDoc.payment_reference d = Some ref) (order db) with
  | Some o => Some o
  | None =>
      match ObjectId_of_str ref with
      | Some i => find_one (λ d, OrderDoc._id d = i) (order db)
      | None => None
      end
  end.

(** Two versions of a document that agree on every field but
    [updated_at]. *)
Definition same_but_updated_at (d d' : OrderDoc.t) : Prop :=
  OrderDoc._id d' = OrderDoc._id d ∧
  OrderDoc.user_id d' = OrderDoc.user_id d ∧
  OrderDoc.product_id d' = OrderDoc.product_id d ∧
  OrderDoc.amount d' = OrderDoc.amount d ∧
  OrderDoc.target_id d' = OrderDoc.target_id d ∧
  OrderDoc.status d' = OrderDoc.status d ∧
  OrderDoc.provider d' = OrderDoc.provider d ∧
  OrderDoc.payment_method_code d' = OrderDoc.payment_method_code d ∧
  OrderDoc.payment_reference d' = OrderDoc.payment_reference d ∧
  OrderDoc.payment_url d' = OrderDoc.payment_url d ∧
  OrderDoc.total_price d' = OrderDoc.total_price d ∧
  OrderDoc.note d' = OrderDoc.note d ∧
  OrderDoc.created_at d' = OrderDoc.created_at d.

(** Two versions of a document that agree on every field but [status]
    and [updated_at]. *)
Definition same_but_status_updated_at (d d' : OrderDoc.t) : Prop :=
  OrderDoc._id d' = OrderDoc._id d ∧
  OrderDoc.user_id d' = OrderDoc.user_id d ∧
  OrderDoc.product_id d' = OrderDoc.product_id d ∧
  OrderDoc.amount d' = OrderDoc.amount d ∧
  OrderDoc.target_id d' = OrderDoc.target_id d ∧
  OrderDoc.provider d' = OrderDoc.provider d ∧
  OrderDoc.payment_method_code d' = OrderDoc.payment_method_code d ∧
  OrderDoc.payment_reference d' = OrderDoc.payment_reference d ∧
  OrderDoc.payment_url d' = OrderDoc.payment_url d ∧
  OrderDoc.total_price d' = OrderDoc.total_price d ∧
  OrderDoc.note d' = OrderDoc.note d ∧
  OrderDoc.created_at d' = OrderDoc.created_at d.

(** The other collections of two stores are the same. *)
Definition same_but_order (db db' : DB) : Prop :=
  db' = with_order (λ _, order db') db.

(** ** Failure kinds and request variants *)

Definition NotFound (e : Exception) : Prop := ∃ detail, e = HTTPException 404 detail.
Definition BadRequest (e : Exception) : Prop := ∃ detail, e = HTTPException 400 detail.

(** The request [o] with other [status] and [total_price] values in its body. *)
Definition with_status_total (s : Status) (t : float) (o : Order.t) : Order.t :=
  Order.mk (Order.user_id o) (Order.product_id o) (Order.amount o) (Order.target_id o)
           s (Order.provider o) (Order.payment_method_code o)
           (Order.payment_reference o) (Order.payment_url o) t (Order.note o).

(** The body [b] with other values under [status], [total_price],
    [created_at] and [updated_at]. *)
Definition with_client_values (s : Status) (t : float) (ca ua : option datetime)
    (b : OrderBody.t) : OrderBody.t :=
  OrderBody.mk (with_status_total s t (OrderBody.fields b)) ca ua.

(** No two stored orders have the same [_id]. *)
Definition unique_ids (db : DB) : Prop := NoDup (OrderDoc._id <$> order db).

(** No stored order has a malformed product id. *)
Definition product_ids_valid (db : DB) : Prop :=
  ∀ o, o ∈ order db → ¬ malformed_product_id o.

(** The request's product id names no product of the store. *)
Definition unknown_product (req : Order.t) (db : DB) : Prop :=
  ∀ p, p ∈ product db → ObjectId_of_str (Order.product_id req) ≠ Some (Product._id p).

(** No code in the request, or one no active payment method has. *)
Definition no_active_method (req : Order.t) (db : DB) : Prop :=
  Order.payment_method_code req = None ∨
  ∀ m, m ∈ paymentmethod db → PaymentMethod.is_active m = true →
       Some (PaymentMethod.code m) ≠ Order.payment_method_code req.

(** ** The delete routes

    [DELETE /api/admin/categories/{id}], [.../products/{id}],
    [.../users/{id}] and [.../payment-methods/{id}] share one body, on
    four collections. *)

Definition with_user (f : list User.t → list User.t) (db : DB) : DB :=
  mkDB (f (user db)) (category db) (product db) (paymentmethod db) (order db)
       (rating db) (deposit db) (providerconfig db).

Definition with_category (f : list Category.t → list Category.t) (db : DB) : DB :=
  mkDB (user db) (f (category db)) (product db) (paymentmethod db) (order db)
       (rating db) (deposit db) (providerconfig db).

Definition with_product (f : list Product.t → list Product.t) (db : DB) : DB :=
  mkDB (user db) (category db) (f (product db)) (paymentmethod db) (order db)
       (rating db) (deposit db) (providerconfig db).

Definition with_paymentmethod (f : list PaymentMethod.t → list PaymentMethod.t)
    (db : DB) : DB :=
  mkDB (user db) (category db) (product db) (f (paymentmethod db)) (order db)
       (rating db) (deposit db) (providerconfig db).

(** A collection of the store: how to read it, how to change it, and
    the [_id] of its documents. *)
Record Coll (A : Type) := mkColl {
  coll_get : DB → list A;
  coll_with : (list A → list A) → DB → DB;
  coll_id : A → ObjectId }.
Arguments coll_get {A} _ _.
Arguments coll_with {A} _ _ _.
Arguments coll_id {A} _ _.

Definition user_coll : Coll User.t := mkColl _ user with_user User._id.
Definition category_coll : Coll Category.t := mkColl _ category with_category Category._id.
Definition product_coll : Coll Product.t := mkColl _ product with_product Product._id.
Definition paymentmethod_coll : Coll PaymentMethod.t :=
  mkColl _ paymentmethod with_paymentmethod PaymentMethod._id.

(** [delete_one({"_id": i})]: the first document with that id is
    removed; the result is [deleted_count]. *)
Definition delete_one {A} (C : Coll A) (i : ObjectId) : M Z :=
  λ db, match list_find (λ d, coll_id C d = i) (coll_get C db) with
        | Some (k, _) => (Ok 1, coll_with C (delete k) db)
        | None => (Ok 0, db)
        end.

(** The shared body: [res = db[c].delete_one({"_id": oid(id)})], 404
    when nothing was deleted. *)
Definition delete_by_id {A} (C : Coll A) (id : string) : M bool :=
  i <- lift (oid id) ;;
  deleted_count <- delete_one C i ;;
  if deleted_count =? 0 then raise (HTTPException 404 "Not found")
  else ret true.

Definition delete_category : string → M bool := delete_by_id category_coll.
Definition delete_product : string → M bool := delete_by_id product_coll.
Definition admin_delete_user : string → M bool := delete_by_id user_coll.
Definition admin_delete_payment_method : string → M bool :=
  delete_by_id paymentmethod_coll.

(** ** [POST /api/auth/login] *)

Module LoginIn.
Record t := mk { email : string; password : string }.
End LoginIn.

Module LoginOut.
Record t := mk { token : string; id : string; name : string; level : Level }.
End LoginOut.

Section auth.
(** [hashlib.sha256(s.encode()).hexdigest()] *)
Variable sha256_hexdigest : string → string.

Definition hash_password (pw : string) : string := sha256_hexdigest pw.

Definition login (payload : LoginIn.t) : M LoginOut.t :=
  found <- reads (λ db, find_one (λ u, User.email u = LoginIn.email payload) (user db)) ;;
  match found with
  | None => raise (HTTPException 401 "Invalid credentials")
  | Some u =>
      if decide (User.password_hash u ≠ hash_password (LoginIn.password payload))
      then raise (HTTPException 401 "Invalid credentials")
      else
        let token := sha256_hexdigest (str_ObjectId (User._id u)) in
        ret (LoginOut.mk token (str_ObjectId (User._id u)) (User.name u) (User.level u))
  end.
End auth.

(** ** [POST /api/tools/check-game-id] *)

(** [c.isspace()] for a character below 256. *)
Definition isspace (c : ascii) : bool :=
  let n := N_of_ascii c in
  ((9 <=? n)%N && (n <=? 13)%N) || ((28 <=? n)%N && (n <=? 32)%N)
  || (n =? 133)%N || (n =? 160)%N.

Fixpoint lstrip (s : string) : string :=
  match s with
  | EmptyString => EmptyString
  | String c s' => if isspace c then lstrip s' else s
  end.

(** [s.rstrip()]: a character stays when it is not a space or
    something stays after it. *)
Fixpoint rstrip (s : string) : string :=
  match s with
  | EmptyString => EmptyString
  | String c s' =>
      match rstrip s' with
      | EmptyString => if isspace c then EmptyString else String c EmptyString
      | r => String c r
      end
  end.

(** [s.strip()] *)
Definition strip (s : string) : string := rstrip (lstrip s).

(** [s[-n:]] for [n > 0]: the last [n] characters, all of [s] when it
    has fewer. *)
Definition last_chars (n : nat) (s : string) : string :=
  String.substring (String.length s - n) n s.

Module CheckIdIn.
Record t := mk { game : string; user_id : string; server : option string }.
End CheckIdIn.

Inductive CheckIdOut :=
| id_invalid (message : string)
| id_valid (nickname game : string).

Definition check_game_id (payload : CheckIdIn.t) : CheckIdOut :=
  if (String.length (strip (CheckIdIn.user_id payload)) <? 3)%nat
  then id_invalid "ID terlalu pendek"
  else
    let nickname := ("Player-" ++ last_chars 4 (CheckIdIn.user_id payload))%string in
    id_valid nickname (CheckIdIn.game payload).

(** ** [GET /api/admin/overview] *)

Module Overview.
Record t := mk {
    users : Z; products : Z; orders : Z; deposits : Z;
    pending_orders : Z; paid_orders : Z;
    recent_orders : list (string * OrderDoc.t) }.
End Overview.

#[global] Instance Status_eq_dec : EqDecision Status.
Proof. solve_decision. Defined.

(** [count_documents(filter)] *)
Definition count_documents {A} (P : A → Prop) `{∀ x, Decision (P x)} (c : list A) : Z :=
  Z.of_nat (length (filter P c)).

(** [.sort("created_at", -1)] *)
Definition created_desc (o1 o2 : OrderDoc.t) : Prop :=
  OrderDoc.created_at o2 ≤ OrderDoc.created_at o1.

#[global] Instance created_desc_dec o1 o2 : Decision (created_desc o1 o2).
Proof. unfold created_desc. apply _. Defined.

(** [db["order"].find().sort("created_at", -1).limit(10)], each document
    with its [_id] as a string. *)
Definition recent_orders (c : list OrderDoc.t) : list (string * OrderDoc.t) :=
  (λ o, (str_ObjectId (OrderDoc._id o), o)) <$> take 10 (merge_sort created_desc c).

Definition admin_overview : M Overview.t :=
  reads (λ db,
    Overview.mk
      (count_documents (λ _, True) (user db))
      (count_documents (λ _, True) (product db))
      (count_documents (λ _, True) (order db))
      (count_documents (λ _, True) (deposit db))
      (count_documents (λ o, OrderDoc.status o = pending) (order db))
      (count_documents (λ o, OrderDoc.status o = paid) (order db))
      (recent_orders (order db))).

(** ** Histories of requests

    The routes of [src/main.py] modelled here that write to the store,
    and what a history of requests to them leaves in it, whether each
    request is answered or refused. *)

Inductive Request :=
| PostOrders (created updated : datetime) (body : OrderBody.t)
| PaymentWebhook (now : datetime) (payload : WebhookIn.t) (query_reference : option string)
| DeleteCategory (category_id : string)
| DeleteProduct (product_id : string)
| DeleteUser (user_id : string)
| DeletePaymentMethod (method_id : string).

Definition serve (r : Request) (db : DB) : DB :=
  match r with
  | PostOrders created updated body => snd (post_orders created updated body db)
  | PaymentWebhook now payload q => snd (payment_webhook now payload q db)
  | DeleteCategory id => snd (delete_category id db)
  | DeleteProduct id => snd (delete_product id db)
  | DeleteUser id => snd (admin_delete_user id db)
  | DeletePaymentMethod id => snd (admin_delete_payment_method id db)
  end.

Definition serve_all (rs : list Request) (db : DB) : DB :=
  foldl (λ db r, serve r db) db rs.

(** The statuses the modelled routes give an order. *)
Definition route_status (s : Status) : Prop := s = pending ∨ s = paid ∨ s = failed.

(** No two products of the store have the same [_id]. *)
Definition unique_product_ids (db : DB) : Prop := NoDup (Product._id <$> product db).

(** An id of twelve bytes. *)
Definition twelve_bytes (i : ObjectId) : Prop := (i < 16 ^ 24)%N.

(** The descending order of the [orders] of entries. *)
Definition counts_desc (a b : Z) : Prop := b ≤ a.

(** The entry [e] without its product title. *)
Definition untitled (e : TopEntry.t) : TopEntry.t :=
  TopEntry.mk (TopEntry.product_id e) None (TopEntry.orders e) (TopEntry.revenue e).

(** The entry [e] once the product [id] is deleted. *)
Definition without_title (id : string) (e : TopEntry.t) : TopEntry.t :=
  if decide (ObjectId_of_str (TopEntry.product_id e) = ObjectId_of_str id)
  then untitled e else e.

(** What holds of an order that came in through the routes: the amount
    the model validates, a status the routes give, the product id [oid]
    took and a provider. *)
Definition served_order (o : OrderDoc.t) : Prop :=
  1 ≤ OrderDoc.amount o ∧
  route_status (OrderDoc.status o) ∧
  is_Some (ObjectId_of_str (OrderDoc.product_id o)) ∧
  is_Some (OrderDoc.provider o).

(** The product [p] with another [is_active]. *)
Definition set_product_is_active (b : bool) (p : Product.t) : Product.t :=
  Product.mk (Product._id p) (Product.title p) (Product.description p) (Product.price p)
             (Product.category_id p) (Product.type p) (Product.provider p) b
             (Product.tags p).

(** The user [u] with another [is_active]. *)
Definition set_is_active (b : bool) (u : User.t) : User.t :=
  User.mk (User._id u) (User.name u) (User.email u) (User.password_hash u)
          (User.phone u) (User.level u) b.

(** [1] for a true proposition, [0] for a false one. *)
Definition indicator (P : Prop) `{Decision P} : Z := if decide P then 1 else 0.

(** The descending order of [created_at] on the entries of
    [recent_orders]. *)
Definition recent_desc (x y : string * OrderDoc.t) : Prop := created_desc x.2 y.2.

(** ** The formulas of the specification *)

Module Spec.
(** "total = round(base + base·f/100 + c, 2)" *)
Definition total_with_fee (base f c : float) : float :=
    round2 (base + base * f / 100 + c)%float.

(** "total = round(P.price × A, 2)", for an amount already a float *)
Definition total_no_fee (price amount : float) : float :=
    round2 (price * amount)%float.
End Spec.

(** ** Sample data *)

Module Sample.
Definition pid : string := "656565656565656565656565".
Definition prod : Product.t :=
    Product.mk 0x656565656565656565656565%N "Diamonds" None 100000%float None
               game_topup (Some vip) true [].
(** price 0.004, the float [0x1.0624dd2f1a9fcp-8] *)
Definition cheap : Product.t :=
    Product.mk 0x0a0a0a0a0a0a0a0a0a0a0a0a%N "Sticker" None 0x1.0624dd2f1a9fcp-8%float None
               voucher None true [].
Definition qris : PaymentMethod.t :=
    PaymentMethod.mk 1%N "QRIS" "qris" (Some tripay) 2%float 1000%float true.
Definition cash : PaymentMethod.t :=
    PaymentMethod.mk 2%N "Cash" "cash" (Some manual_gateway) 0%float 0%float true.
Definition old : PaymentMethod.t :=
    PaymentMethod.mk 3%N "Old" "old" (Some tokopay) 5%float 0%float false.
Definition db0 : DB := mkDB [] [] [prod; cheap] [qris; cash; old] [] [] [] [].
Definition req (p : string) (n : Z) (code : option string) : Order.t :=
    Order.mk None p n None success None code None None 7%float None.
Definition cheap_pid : string := "0a0a0a0a0a0a0a0a0a0a0a0a".
(** a request that carries the gateway's reference "INV-7" *)
Definition inv7 : Order.t :=
    Order.mk None pid 1 None pending None (Some "qris"%string) (Some "INV-7"%string)
             None 0%float None.
Definition db1 : DB := snd (create_order 10 11 (req pid 2 (Some "qris"%string)) db0).
Definition db2 : DB := snd (create_order 12 13 inv7 db1).
Definition db3 : DB := snd (create_order 14 15 (req cheap_pid 5 None) db2).
Definition paid_inv7 : WebhookIn.t := WebhookIn.mk (Some "INV-7"%string) webhook_paid.
Definition db4 : DB := snd (payment_webhook 20 paid_inv7 None db3).
(** the store after [n] more orders like [r] *)
Definition orders_n (n : nat) (r : Order.t) (db : DB) : DB :=
    Nat.iter n (λ db, snd (create_order 10 11 r db)) db.
(** three orders of [prod], then five of [cheap] *)
Definition ranking_db : DB :=
    orders_n 5 (req cheap_pid 1000 None) (orders_n 3 (req pid 1 None) db0).
End Sample.

(** ** More sample data *)

Module Scenario.
(** a request whose [payment_reference] is the id of the order of
    [Sample.db1] *)
Definition shadow : Order.t :=
    Order.mk None Sample.cheap_pid 1 None pending None None
             (Some "000000000000000000000001"%string) None 0%float None.
Definition db_shadow : DB := snd (create_order 30 31 shadow Sample.db1).
(** a stand-in for the digest *)
Definition digest (s : string) : string := ("sha256:" ++ s)%string.
Definition alice : User.t :=
    User.mk 1%N "Alice" "alice@example.com" (digest "secret") None member true.
Definition bob : User.t :=
    User.mk 2%N "Bob" "bob@example.com" (digest "hunter2") None admin true.
Definition db_members : DB := with_user (λ _, [alice; bob]) Sample.db3.
(** [Sample.db3] without the product [Sample.prod] *)
Definition db_deleted : DB := snd (delete_product Sample.pid Sample.db3).
(** the order [db_shadow] holds for the request [shadow] *)
Definition shadow_doc : OrderDoc.t :=
    OrderDoc.mk 2%N None Sample.cheap_pid 1 None pending (Some manual) None
                (Some "000000000000000000000001"%string) None 0%float None 30 31.
(** one order of each of the two products *)
Definition db_tie : DB :=
    Sample.orders_n 1 (Sample.req Sample.cheap_pid 1 None)
      (Sample.orders_n 1 (Sample.req Sample.pid 1 None) Sample.db0).
(** an order, an order refused for its amount, a webhook call for the
    first, the deletion of the product and an order refused for it *)
Definition history : list Request :=
    [PostOrders 10 11 (OrderBody.mk (Sample.req Sample.pid 2 (Some "qris"%string)) None None);
     PostOrders 12 13 (OrderBody.mk (Sample.req Sample.pid 0 None) None None);
     PaymentWebhook 20 (WebhookIn.mk (Some "000000000000000000000001"%string) webhook_failed)
                    None;
     DeleteProduct Sample.pid;
     PostOrders 30 31 (OrderBody.mk (Sample.req Sample.pid 1 None) None None)].
End Scenario.

(** * Properties *)

(** ** Rounding *)

(** [round_half_even_div a b] is an integer nearest to [a / b]. *)
Lemma round_half_even_div_nearest (a b : Z) :
  0 ≤ a → 0 < b →
  let q := round_half_even_div a b in
  0 ≤ q ∧ 2 * Z.abs (q * b - a) ≤ b.
Proof.
  intros Ha Hb. unfold round_half_even_div.
  pose proof (Z_div_mod a b ltac:(lia)) as Hdiv.
  destruct (Z.div_eucl a b) as [q r]. destruct Hdiv as [Hdiv Hr].
  assert (0 ≤ q) by nia.
  assert (q * b - a = - r) as Hq by lia.
  assert ((q + 1) * b - a = b - r) as Hq1 by lia.
  destruct (2 * r ?= b) eqn:Hc; cbv zeta.
  - apply Z.compare_eq in Hc.
    destruct (Z.even q); [rewrite Hq, Z.abs_opp|rewrite Hq1];
      rewrite Z.abs_eq; lia.
  - change (2 * r < b) in Hc. rewrite Hq, Z.abs_opp, Z.abs_eq; lia.
  - change (2 * r > b) in Hc. rewrite Hq1, Z.abs_eq; lia.
Qed.

(** Floats that are not finite, and the zeros, round to themselves. *)
Lemma round2_not_finite (x : float) :
  (∀ s m e, Prim2SF x ≠ S754_finite s m e) → round2 x = x.
Proof.
  intros Hx. unfold round2. destruct (Prim2SF x) as [| | |s m e]; try done.
  by destruct (Hx s m e).
Qed.

Example round2_half_even :
  round2 0.125 = 0x1.eb851eb851eb8p-4%float ∧
  round2 0.375 = 0x1.851eb851eb852p-2%float ∧
  round2 0x1.0624dd2f1a9fcp-8 = 0%float ∧ round2 205000 = 205000%float.
Proof. repeat split; vm_compute; reflexivity. Qed.

(** ** Conversion of integers

    An amount below [2 ^ 63] converts to a float: rounding it to 53
    bits cannot reach the exponent of the infinities. *)

Lemma digits2_pos_size p : digits2_pos p = Pos.size p.
Proof. induction p; simpl; congruence. Qed.

Lemma Zdigits2_le (m k : Z) : 0 ≤ k → 0 ≤ m ≤ 2 ^ k → Zdigits2 m ≤ k + 1.
Proof.
  intros Hk Hm. destruct m as [|p|p]; simpl; try lia.
  rewrite digits2_pos_size.
  pose proof (Pos.size_le p) as Hle.
  apply Pos2Z.pos_le_pos in Hle. rewrite Pos2Z.inj_pow in Hle.
  change (Z.pos p~0) with (2 * Z.pos p) in Hle.
  assert (2 ^ Z.pos (Pos.size p) ≤ 2 ^ (k + 1)) as Hpow.
  { replace (k + 1) with (Z.succ k) by lia. rewrite Z.pow_succ_r by lia. lia. }
  destruct (Z.le_gt_cases (Z.pos (Pos.size p)) (k + 1)) as [|Hgt]; [assumption|].
  apply (Z.pow_lt_mono_r 2) in Hgt; lia.
Qed.

Lemma Zdigits2_gt (m : Z) : 0 ≤ m → m < 2 ^ Zdigits2 m.
Proof.
  intros Hm. destruct m as [|p|p]; simpl; try lia.
  rewrite digits2_pos_size.
  pose proof (Pos.size_gt p) as Hgt.
  apply Pos2Z.pos_lt_pos in Hgt. rewrite Pos2Z.inj_pow in Hgt. exact Hgt.
Qed.

Lemma shr_1_bounds r : 0 ≤ shr_m r → 0 ≤ shr_m (shr_1 r) ≤ shr_m r.
Proof.
  destruct r as [m b s]. simpl. intros Hm.
  destruct m as [|[p|p|]|p]; simpl; lia.
Qed.

Lemma iter_shr_1_bounds p r :
  0 ≤ shr_m r → 0 ≤ shr_m (SpecFloat.iter_pos shr_1 p r) ≤ shr_m r.
Proof.
  revert r. induction p as [p IH|p IH|]; intros r Hr; simpl.
  - pose proof (shr_1_bounds r Hr) as H1.
    pose proof (IH (shr_1 r) ltac:(lia)) as H2.
    pose proof (IH (SpecFloat.iter_pos shr_1 p (shr_1 r)) ltac:(lia)) as H3. lia.
  - pose proof (IH r Hr) as H2.
    pose proof (IH (SpecFloat.iter_pos shr_1 p r) ltac:(lia)) as H3. lia.
  - apply shr_1_bounds; exact Hr.
Qed.

Lemma shr_m_of_loc m l : shr_m (shr_record_of_loc m l) = m.
Proof. destruct l as [|[| |]]; reflexivity. Qed.

Lemma round_nearest_even_bounds m l : 0 ≤ m → 0 ≤ round_nearest_even m l ≤ m + 1.
Proof.
  intros Hm. destruct l as [|[| |]]; simpl; try lia.
  destruct (Z.even m); lia.
Qed.

Lemma shr_fexp_bounds m e l b :
  0 ≤ b → 0 ≤ m → Zdigits2 m ≤ 200 → e ≤ b ->
  let '(r, e') := shr_fexp prec emax m e l in
  0 ≤ shr_m r ≤ m ∧ e' ≤ b + 200.
Proof.
  intros Hb Hm Hd He. unfold shr_fexp, shr.
  pose proof (shr_m_of_loc m l) as Hloc.
  assert (fexp prec emax (Zdigits2 m + e) ≤ b + 200) as Hf.
  { unfold fexp, emin, prec, emax. lia. }
  destruct (fexp prec emax (Zdigits2 m + e) - e) as [|p|p] eqn:Hn.
  - rewrite Hloc. lia.
  - pose proof (iter_shr_1_bounds p (shr_record_of_loc m l) ltac:(lia)). lia.
  - rewrite Hloc. lia.
Qed.

Lemma binary_round_aux_not_infinity sx mx ex lx s :
  0 ≤ mx → Zdigits2 mx ≤ 199 → ex ≤ 100 ->
  binary_round_aux prec emax sx mx ex lx ≠ S754_infinity s.
Proof.
  intros Hm Hd He. unfold binary_round_aux.
  pose proof (shr_fexp_bounds mx ex lx 100 ltac:(lia) Hm ltac:(lia) He) as H1.
  destruct (shr_fexp prec emax mx ex lx) as [r1 e1]. destruct H1 as [Hr1 He1].
  pose proof (round_nearest_even_bounds (shr_m r1) (loc_of_shr_record r1) ltac:(lia)) as Hround.
  set (m1 := round_nearest_even (shr_m r1) (loc_of_shr_record r1)) in *.
  assert (Zdigits2 m1 ≤ 200) as Hd1.
  { apply (Zdigits2_le m1 199); [lia|].
    pose proof (Zdigits2_gt mx Hm) as Hgt.
    assert (2 ^ Zdigits2 mx ≤ 2 ^ 199) by (apply Z.pow_le_mono_r; lia || (destruct mx; simpl; lia)).
    lia. }
  pose proof (shr_fexp_bounds m1 e1 loc_Exact 300 ltac:(lia) ltac:(lia) Hd1 He1) as H2.
  destruct (shr_fexp prec emax m1 e1 loc_Exact) as [r2 e2]. destruct H2 as [Hr2 He2].
  destruct (shr_m r2); [discriminate| |discriminate].
  assert ((e2 <=? emax - prec) = true) as -> by (apply Z.leb_le; unfold emax, prec; lia).
  discriminate.
Qed.

Lemma digits2_iter_xO p d :
  Z.pos (digits2_pos (Pos.iter xO p d)) = Z.pos (digits2_pos p) + Z.pos d.
Proof.
  induction d as [|d IH] using Pos.peano_ind.
  - simpl. lia.
  - rewrite Pos.iter_succ. simpl. lia.
Qed.

Lemma binary_normalize_not_infinity n s :
  0 ≤ n < 2 ^ 63 → binary_normalize prec emax n 0 false ≠ S754_infinity s.
Proof.
  intros Hn. destruct n as [|p|p]; [discriminate| |lia].
  unfold binary_normalize, binary_round, shl_align.
  assert (Z.pos (digits2_pos p) ≤ 64) as Hd
    by (apply (Zdigits2_le (Z.pos p) 63); lia).
  assert (- 52 ≤ fexp prec emax (Z.pos (digits2_pos p) + 0) ≤ 11) as Hf
    by (unfold fexp, emin, prec, emax; lia).
  destruct (fexp prec emax (Z.pos (digits2_pos p) + 0) - 0) as [|d|d] eqn:Hshift.
  - apply binary_round_aux_not_infinity; simpl; lia.
  - apply binary_round_aux_not_infinity; simpl; lia.
  - apply binary_round_aux_not_infinity; [lia| |lia].
    simpl. rewrite digits2_iter_xO. lia.
Qed.

Lemma float_of_int_uint63 n :
  0 ≤ n < 2 ^ 63 → float_of_int n = Ok (of_uint63 (of_Z n)).
Proof.
  intros Hn. unfold float_of_int.
  assert (binary_normalize prec emax n 0 false = Prim2SF (of_uint63 (of_Z n))) as Hspec.
  { rewrite of_uint63_spec, of_Z_spec, Z.mod_small; [reflexivity|exact Hn]. }
  pose proof (λ s, binary_normalize_not_infinity n s Hn) as Hfin.
  rewrite Hspec, SF2Prim_Prim2SF. rewrite Hspec in Hfin.
  unfold is_infinity. rewrite FloatAxioms.eqb_spec, abs_spec.
  destruct (Prim2SF (of_uint63 (of_Z n))) as [s|s| |s m e]; try reflexivity.
  exfalso. apply (Hfin s). reflexivity.
Qed.

(** ** Object ids and lookups *)

Lemma foldr_max_ge (ids : list ObjectId) (i : ObjectId) :
  i ∈ ids → (i <= foldr N.max 0 ids)%N.
Proof.
  induction ids as [|j ids IH]; intros Hi.
  - by apply elem_of_nil in Hi.
  - apply elem_of_cons in Hi as [->|Hi]; simpl; [lia|].
    specialize (IH Hi). lia.
Qed.

Lemma new_ObjectId_fresh (ids : list ObjectId) : new_ObjectId ids ∉ ids.
Proof.
  intros Hin. apply foldr_max_ge in Hin. unfold new_ObjectId in Hin. lia.
Qed.

Section find_one.
Context {A : Type} (P : A → Prop) `{!∀ x, Decision (P x)}.

Lemma find_one_Some (c : list A) (x : A) :
  find_one P c = Some x → x ∈ c ∧ P x.
Proof.
  unfold find_one. destruct (list_find P c) as [[k y]|] eqn:E; [|done].
  intros [= <-]. apply list_find_Some in E as (Hk & HP & _).
  split; [by eapply list_elem_of_lookup_2|done].
Qed.

Lemma find_one_None (c : list A) :
  find_one P c = None ↔ ∀ x, x ∈ c → ¬ P x.
Proof.
  unfold find_one. rewrite fmap_None, list_find_None, Forall_forall. done.
Qed.

(** A change in place that keeps the filter's verdict on every document
    keeps the position found and changes the document found. *)
Lemma list_find_alter (f : A → A) (k : nat) (c : list A) :
  (∀ x, P (f x) ↔ P x) →
  list_find P (alter f k c) =
  (λ '(i, x), (i, if decide (i = k) then f x else x)) <$> list_find P c.
Proof.
  intros Hf. revert k. induction c as [|y c IH]; intros k; [done|].
  destruct k as [|k]; simpl.
  - destruct (decide (P y)) as [Hy|Hy].
    + rewrite decide_True by (by apply Hf). done.
    + rewrite decide_False by (by rewrite Hf).
      destruct (list_find P c) as [[i x]|]; simpl; [|done].
      destruct (decide (S i = 0)%nat); [lia|done].
  - destruct (decide (P y)); simpl; [done|].
    change (list_alter f k c) with (alter f k c).
    rewrite IH. destruct (list_find P c) as [[i x]|]; simpl; [|done].
    destruct (decide (i = k)), (decide (S i = S k)); done || lia.
Qed.
End find_one.

(** ** What [create_order] does when the product exists *)

Lemma list_find_new_id (c : list OrderDoc.t) (d : OrderDoc.t) (i : ObjectId) :
  OrderDoc._id d = i →
  i ∉ OrderDoc._id <$> c →
  list_find (λ x, OrderDoc._id x = i) (c ++ [d]) = Some (length c, d).
Proof.
  intros Hid Hfresh. apply list_find_Some. split_and!.
  - by rewrite lookup_app_r, Nat.sub_diag by lia.
  - done.
  - intros j y Hj Hlt Hy. apply Hfresh. rewrite <- Hy.
    apply list_elem_of_fmap. exists y. split; [done|].
    apply list_elem_of_lookup. exists j.
    by rewrite lookup_app_l in Hj by lia.
Qed.

Lemma alter_new (f : OrderDoc.t → OrderDoc.t) (c : list OrderDoc.t) (d : OrderDoc.t) :
  alter f (length c) (c ++ [d]) = c ++ [f d].
Proof.
  induction c as [|x c IH]; simpl; [done|].
  f_equal. exact IH.
Qed.

Lemma int64_amount req prod total created updated i :
  OrderDoc.amount (order_payload req prod total created updated i) = Order.amount req.
Proof. reflexivity. Qed.

Lemma create_order_run created updated req db pid prod base :
  oid (Order.product_id req) = Ok pid →
  find_one (λ p, Product._id p = pid) (product db) = Some prod →
  float_mul_int (Product.price prod) (Order.amount req) = Ok base →
  int64 (Order.amount req) = true →
  let pm := active_method (Order.payment_method_code req) db in
  let total := order_total base pm in
  let i := new_ObjectId (OrderDoc._id <$> order db) in
  create_order created updated req db =
    (Ok (OrderOut.mk (str_ObjectId i) (mock_url pm i) (round2 total)),
     with_order
       (λ c, c ++ [stored_order req prod total created updated (mock_url pm i) i]) db).
Proof.
  intros Hpid Hprod Hbase Hamt pm total i.
  unfold create_order, bind, lift, reads, ret. rewrite Hpid. simpl. rewrite Hprod.
  unfold bind, lift, reads, ret. rewrite Hbase. simpl.
  fold pm. fold total.
  unfold insert_one_order. fold i. rewrite int64_amount, Hamt.
  unfold mock_url, stored_order.
  destruct (mock_gateway pm) as [g|]; simpl; [|done].
  unfold update_one_order, writes, with_order; simpl.
  set (d := order_payload req prod total created updated i).
  rewrite (list_find_new_id (order db) d i); [|done|apply new_ObjectId_fresh].
  by rewrite alter_new.
Qed.

Lemma create_order_inv created updated req db out db' :
  create_order created updated req db = (Ok out, db') →
  ∃ pid prod base,
    oid (Order.product_id req) = Ok pid ∧
    find_one (λ p, Product._id p = pid) (product db) = Some prod ∧
    float_mul_int (Product.price prod) (Order.amount req) = Ok base ∧
    int64 (Order.amount req) = true.
Proof.
  unfold create_order, bind, lift, reads, raise.
  destruct (oid (Order.product_id req)) as [pid|e] eqn:Hpid; [|done].
  destruct (find_one _ (product db)) as [prod|] eqn:Hprod; [|done].
  destruct (float_mul_int _ _) as [base|e] eqn:Hbase; [|done].
  cbv beta iota. unfold insert_one_order. rewrite int64_amount.
  destruct (int64 (Order.amount req)) eqn:Hamt; [|done].
  intros _. by exists pid, prod, base.
Qed.

Lemma int64_bounds (n : Z) : int64 n = true ↔ - 2 ^ 63 ≤ n < 2 ^ 63.
Proof. unfold int64. rewrite andb_true_iff, Z.leb_le, Z.ltb_lt. done. Qed.

Lemma int64_nonneg (n : Z) : 0 ≤ n < 2 ^ 63 → int64 n = true.
Proof.
  intros Hn. apply int64_bounds.
  pose proof (Z.pow_pos_nonneg 2 63 ltac:(done) ltac:(done)). lia.
Qed.

Lemma active_method_Some code db m :
  active_method code db = Some m →
  m ∈ paymentmethod db ∧ PaymentMethod.is_active m = true ∧
  code = Some (PaymentMethod.code m) ∧ PaymentMethod.code m ≠ ""%string.
Proof.
  unfold active_method. destruct (truthy code) eqn:Ht; [|done].
  intros (Hin & Hcode & Hact)%find_one_Some. split_and!; [done..|].
  subst code. simpl in Ht. intros Hempty. rewrite Hempty in Ht. done.
Qed.

Lemma active_method_None req db :
  no_active_method req db →
  active_method (Order.payment_method_code req) db = None.
Proof.
  unfold active_method. intros [Hnone|Hno].
  - by rewrite Hnone.
  - destruct (truthy _); [|done]. apply find_one_None.
    intros m Hin [Hcode Hact]. by apply (Hno m).
Qed.

(** A code that exactly one active method has resolves to that method. *)
Lemma active_method_unique db m :
  m ∈ paymentmethod db →
  PaymentMethod.is_active m = true →
  PaymentMethod.code m ≠ ""%string →
  (∀ m', m' ∈ paymentmethod db → PaymentMethod.is_active m' = true →
         PaymentMethod.code m' = PaymentMethod.code m → m' = m) →
  active_method (Some (PaymentMethod.code m)) db = Some m.
Proof.
  intros Hin Hact Hcode Huniq. unfold active_method. simpl.
  apply String.eqb_neq in Hcode. rewrite Hcode. simpl.
  destruct (find_one _ (paymentmethod db)) as [m'|] eqn:E.
  - apply find_one_Some in E as (Hin' & [= Hc] & Hact'). f_equal. by apply Huniq.
  - exfalso. eapply find_one_None in E; [|exact Hin]. by apply E.
Qed.

Lemma float_mul_int_Ok x n a :
  float_of_int n = Ok a → float_mul_int x n = Ok (x * a)%float.
Proof. unfold float_mul_int. by intros ->. Qed.

Lemma stored_order_total req prod total created updated url i :
  OrderDoc.total_price (stored_order req prod total created updated url i) = round2 total.
Proof. by destruct url. Qed.

Lemma stored_order_id req prod total created updated url i :
  OrderDoc._id (stored_order req prod total created updated url i) = i.
Proof. by destruct url. Qed.

(** ** Order pricing *)

(** What [create_order] stores and returns for an amount that converts
    to the float [a]. *)
Lemma create_order_priced created updated req db pid P a :
  oid (Order.product_id req) = Ok pid →
  find_one (λ p, Product._id p = pid) (product db) = Some P →
  float_of_int (Order.amount req) = Ok a →
  int64 (Order.amount req) = true →
  let pm := active_method (Order.payment_method_code req) db in
  ∃ out doc,
    create_order created updated req db = (Ok out, with_order (λ c, c ++ [doc]) db) ∧
    OrderOut.id out = str_ObjectId (OrderDoc._id doc) ∧
    OrderDoc.total_price doc = OrderOut.total_price out ∧
    OrderOut.total_price out = round2 (order_total (Product.price P * a) pm) ∧
    OrderOut.payment_url out = mock_url pm (OrderDoc._id doc).
Proof.
  intros Hpid HP Ha Hamt pm.
  pose proof (create_order_run created updated req db pid P _ Hpid HP
                (float_mul_int_Ok _ _ _ Ha) Hamt) as Hrun.
  cbv zeta in Hrun. fold pm in Hrun.
  eexists _, _. split; [exact Hrun|].
  by rewrite stored_order_total, stored_order_id.
Qed.

(** C1 (amended): when the request names product [P], its code resolves to
    the active payment method [M] and the amount [A] is below [2 ^ 63],
    [A] converts to a float and [create_order] appends one order whose
    [total_price], also returned, is [round(base + base * f / 100 + c, 2)]
    for [base = P.price * A]. *)
Theorem create_order_total_with_fee created updated req db pid P M :
  oid (Order.product_id req) = Ok pid →
  find_one (λ p, Product._id p = pid) (product db) = Some P →
  active_method (Order.payment_method_code req) db = Some M →
  0 ≤ Order.amount req < 2 ^ 63 →
  ∃ a out doc,
    float_of_int (Order.amount req) = Ok a ∧
    create_order created updated req db = (Ok out, with_order (λ c, c ++ [doc]) db) ∧
    OrderOut.id out = str_ObjectId (OrderDoc._id doc) ∧
    OrderDoc.total_price doc = OrderOut.total_price out ∧
    OrderOut.total_price out =
      Spec.total_with_fee (Product.price P * a)
        (PaymentMethod.fee_percent M) (PaymentMethod.fee_flat M).
Proof.
  intros Hpid HP HM Hamt. pose proof (float_of_int_uint63 _ Hamt) as Ha.
  destruct (create_order_priced created updated req db pid P _ Hpid HP Ha
              (int64_nonneg _ Hamt))
    as (out & doc & Hrun & Hid & Hdoc & Hout & _).
  rewrite HM in Hout. by eexists _, out, doc.
Qed.

Lemma create_order_total_with_fee_witness :
  ∃ a out doc,
    float_of_int 2 = Ok a ∧
    create_order 10 11 (Sample.req Sample.pid 2 (Some "qris"%string)) Sample.db0
      = (Ok out, with_order (λ c, c ++ [doc]) Sample.db0) ∧
    OrderOut.id out = str_ObjectId (OrderDoc._id doc) ∧
    OrderDoc.total_price doc = OrderOut.total_price out ∧
    OrderOut.total_price out = Spec.total_with_fee (100000 * a) 2 1000.
Proof.
  apply (create_order_total_with_fee 10 11 (Sample.req Sample.pid 2 (Some "qris"%string))
           Sample.db0 0x656565656565656565656565%N Sample.prod Sample.qris);
    [reflexivity..|].
  simpl. lia.
Defined.

(** The example of the specification: price 100000, amount 2, fee 2% and
    1000 flat give 205000. *)
Example create_order_205000 :
  OrderOut.total_price <$>
    (match fst (create_order 10 11 (Sample.req Sample.pid 2 (Some "qris"%string)) Sample.db0)
     with Ok out => Some out | Raise _ => None end)
  = Some 205000%float.
Proof. vm_compute. reflexivity. Qed.

(** C1 as stated fails on its last clause: product [Sample.cheap] costs
    0.004, the active method "cash" has no fee, and the total, rounded to
    0.0, is below the base 0.004. *)
Lemma create_order_total_below_base :
  let req := Sample.req "0a0a0a0a0a0a0a0a0a0a0a0a" 1 (Some "cash"%string) in
  let base := (Product.price Sample.cheap * 1)%float in
  oid (Order.product_id req) = Ok (Product._id Sample.cheap) ∧
  find_one (λ p, Product._id p = Product._id Sample.cheap) (product Sample.db0)
    = Some Sample.cheap ∧
  active_method (Order.payment_method_code req) Sample.db0 = Some Sample.cash ∧
  (0 <=? PaymentMethod.fee_percent Sample.cash)%float = true ∧
  (0 <=? PaymentMethod.fee_flat Sample.cash)%float = true ∧
  0 < Order.amount req < 2 ^ 63 ∧
  float_of_int (Order.amount req) = Ok 1%float ∧
  ∃ out db',
    create_order 10 11 req Sample.db0 = (Ok out, db') ∧
    OrderOut.total_price out = Spec.total_with_fee base 0 0 ∧
    OrderOut.total_price out = 0%float ∧
    (base <=? OrderOut.total_price out)%float = false.
Proof.
  cbv zeta. split_and!; [reflexivity..|done|done|reflexivity|].
  eexists _, _. split_and!; [vm_compute; reflexivity|reflexivity..].
Qed.

(** C2 (amended): when the request names product [P], carries no
    payment-method code or one that no active method has, and the amount
    [A] is below [2 ^ 63], [A] converts to a float and [create_order]
    appends one order whose [total_price], also returned, is
    [round(P.price * A, 2)]; no payment url is made. *)
Theorem create_order_total_no_fee created updated req db pid P :
  oid (Order.product_id req) = Ok pid →
  find_one (λ p, Product._id p = pid) (product db) = Some P →
  no_active_method req db →
  0 ≤ Order.amount req < 2 ^ 63 →
  ∃ a out doc,
    float_of_int (Order.amount req) = Ok a ∧
    create_order created updated req db = (Ok out, with_order (λ c, c ++ [doc]) db) ∧
    OrderOut.id out = str_ObjectId (OrderDoc._id doc) ∧
    OrderDoc.total_price doc = OrderOut.total_price out ∧
    OrderOut.total_price out = Spec.total_no_fee (Product.price P) a ∧
    OrderOut.payment_url out = None.
Proof.
  intros Hpid HP HM%active_method_None Hamt. pose proof (float_of_int_uint63 _ Hamt) as Ha.
  destruct (create_order_priced created updated req db pid P _ Hpid HP Ha
              (int64_nonneg _ Hamt))
    as (out & doc & Hrun & Hid & Hdoc & Hout & Hurl).
  rewrite HM in Hout, Hurl. by eexists _, out, doc.
Qed.

Lemma create_order_total_no_fee_witness :
  ∃ a out doc,
    float_of_int 3 = Ok a ∧
    create_order 10 11 (Sample.req Sample.pid 3 (Some "old"%string)) Sample.db0
      = (Ok out, with_order (λ c, c ++ [doc]) Sample.db0) ∧
    OrderOut.id out = str_ObjectId (OrderDoc._id doc) ∧
    OrderDoc.total_price doc = OrderOut.total_price out ∧
    OrderOut.total_price out = Spec.total_no_fee 100000 a ∧
    OrderOut.payment_url out = None.
Proof.
  apply (create_order_total_no_fee 10 11 (Sample.req Sample.pid 3 (Some "old"%string))
           Sample.db0 0x656565656565656565656565%N Sample.prod);
    [reflexivity|reflexivity| |simpl; lia].
  right. intros m Hm Hact.
  repeat (apply elem_of_cons in Hm as [->|Hm]); [done|done|done|].
  by apply elem_of_nil in Hm.
Defined.

(** C2 as stated fails for an amount too large for a float: with product
    [Sample.prod], no payment-method code and the positive amount 2^1024
    the handler raises [OverflowError] and writes nothing. *)
Lemma create_order_amount_overflow :
  let req := Sample.req Sample.pid (2 ^ 1024) None in
  0 < Order.amount req ∧
  oid (Order.product_id req) = Ok (Product._id Sample.prod) ∧
  find_one (λ p, Product._id p = Product._id Sample.prod) (product Sample.db0)
    = Some Sample.prod ∧
  no_active_method req Sample.db0 ∧
  Order.valid req = true ∧
  create_order 10 11 req Sample.db0 = (Raise OverflowError, Sample.db0).
Proof.
  cbv zeta. split_and!; [done|reflexivity|reflexivity|by left|reflexivity|].
  vm_compute. reflexivity.
Qed.

(** ** Unknown products *)

Lemma unknown_product_find req db pid :
  unknown_product req db →
  oid (Order.product_id req) = Ok pid →
  find_one (λ p, Product._id p = pid) (product db) = None.
Proof.
  unfold oid. intros Hunk Hpid. apply find_one_None. intros p Hin Hp.
  apply (Hunk p Hin). destruct (ObjectId_of_str _); [|done].
  injection Hpid as ->. by rewrite Hp.
Qed.

(** C3 (amended): when the request's product id names no product,
    [create_order] fails and writes nothing; the failure is NotFound
    for an id [ObjectId] takes, any string of 24 characters that
    [bytes.fromhex] reads, and BadRequest for one it rejects. *)
Theorem create_order_unknown_product created updated req db :
  unknown_product req db →
  ∃ e, create_order created updated req db = (Raise e, db) ∧
       match ObjectId_of_str (Order.product_id req) with
       | Some _ => NotFound e
       | None => BadRequest e
       end.
Proof.
  intros Hunk. unfold create_order, bind, lift, reads, raise.
  pose proof (unknown_product_find req db) as Hfind.
  unfold oid in *. destruct (ObjectId_of_str (Order.product_id req)) as [pid|].
  - rewrite (Hfind pid Hunk eq_refl). eexists. split; [done|]. by eexists.
  - eexists. split; [done|]. by eexists.
Qed.

Lemma create_order_unknown_product_witness :
  ∃ e, create_order 10 11 (Sample.req "0a0a0a0a0a0a0a0a0a0a0a0b" 1 None) Sample.db0
         = (Raise e, Sample.db0) ∧ NotFound e.
Proof.
  apply (create_order_unknown_product 10 11
           (Sample.req "0a0a0a0a0a0a0a0a0a0a0a0b" 1 None) Sample.db0).
  intros p Hp.
  repeat (apply elem_of_cons in Hp as [->|Hp]); [done|done|].
  by apply elem_of_nil in Hp.
Defined.

(** An id of 24 characters with white space in it, which
    [bytes.fromhex] skips, is one [ObjectId] takes: no product has it,
    and the failure is NotFound. *)
Example create_order_spaced_id_not_found :
  create_order 10 11 (Sample.req "0a0a0a0a0a0a0a0a0a0a0a  " 1 None) Sample.db0
  = (Raise (HTTPException 404 "Product not found"), Sample.db0).
Proof. vm_compute. reflexivity. Qed.

(** C3 as stated fails for a malformed id: the product id "X" of the
    specification's example names no product, and the failure is
    BadRequest ("Invalid id"), not NotFound. *)
Lemma create_order_malformed_id_bad_request :
  let req := Sample.req "X" 1 None in
  unknown_product req Sample.db0 ∧
  create_order 10 11 req Sample.db0 = (Raise (HTTPException 400 "Invalid id"), Sample.db0) ∧
  ¬ NotFound (HTTPException 400 "Invalid id").
Proof.
  cbv zeta. split_and!.
  - intros p Hp. done.
  - reflexivity.
  - intros [detail Hd]. done.
Qed.

(** ** The calculator *)

(** C9 (amended): for an amount from 1 to [2 ^ 63 - 1], a request on a
    product with the payload's price, with the payload's amount and an
    active payment method with the payload's fees: [calc_total]
    answers, with the rounded total that [POST /api/orders] returns and
    stores, and as [base] the base of the order rounded to two
    decimals.  [calc_total] does not touch the store. *)
Theorem calc_total_mirrors_create_order created updated req ca ua db pid P M payload :
  oid (Order.product_id req) = Ok pid →
  find_one (λ p, Product._id p = pid) (product db) = Some P →
  active_method (Order.payment_method_code req) db = Some M →
  CalcIn.price payload = Product.price P →
  CalcIn.amount payload = Order.amount req →
  CalcIn.fee_percent payload = PaymentMethod.fee_percent M →
  CalcIn.fee_flat payload = PaymentMethod.fee_flat M →
  1 ≤ Order.amount req < 2 ^ 63 →
  snd (lift (calc_total payload) db) = db ∧
  ∃ r base out doc,
    calc_total payload = Ok r ∧
    float_mul_int (Product.price P) (Order.amount req) = Ok base ∧
    post_orders created updated (OrderBody.mk req ca ua) db
      = (Ok out, with_order (λ c, c ++ [doc]) db) ∧
    CalcOut.total r = OrderOut.total_price out ∧
    CalcOut.total r = OrderDoc.total_price doc ∧
    CalcOut.base r = round2 base.
Proof.
  intros Hpid HP HM Hprice Hamount Hpercent Hflat Hamt. split; [done|].
  assert (0 ≤ Order.amount req < 2 ^ 63) as Hnonneg by lia.
  pose proof (float_mul_int_Ok (Product.price P) _ _ (float_of_int_uint63 _ Hnonneg)) as Hbase.
  pose proof (create_order_run created updated req db pid P _ Hpid HP Hbase
                (int64_nonneg _ Hnonneg)) as Hrun.
  cbv zeta in Hrun. rewrite HM in Hrun.
  unfold calc_total. rewrite Hprice, Hamount, Hpercent, Hflat, Hbase.
  eexists _, _, _, _. split; [done|]. split; [done|]. split.
  - unfold post_orders, Order.valid. simpl.
    destruct (1 <=? Order.amount req) eqn:Hvalid; [exact Hrun|].
    apply Z.leb_gt in Hvalid. lia.
  - by rewrite stored_order_total.
Qed.

Lemma calc_total_mirrors_create_order_witness :
  let req := Sample.req Sample.pid 2 (Some "qris"%string) in
  snd (lift (calc_total (CalcIn.mk 100000 2 2 1000)) Sample.db0) = Sample.db0 ∧
  ∃ r base out doc,
    calc_total (CalcIn.mk 100000 2 2 1000) = Ok r ∧
    float_mul_int 100000 2 = Ok base ∧
    post_orders 10 11 (OrderBody.mk req None None) Sample.db0
      = (Ok out, with_order (λ c, c ++ [doc]) Sample.db0) ∧
    CalcOut.total r = OrderOut.total_price out ∧
    CalcOut.total r = OrderDoc.total_price doc ∧
    CalcOut.base r = round2 base.
Proof.
  apply (calc_total_mirrors_create_order 10 11
           (Sample.req Sample.pid 2 (Some "qris"%string)) None None Sample.db0
           0x656565656565656565656565%N Sample.prod Sample.qris
           (CalcIn.mk 100000 2 2 1000)); [reflexivity..|].
  simpl. lia.
Defined.

(** Outside these amounts the two part ways.  For amount [2 ^ 63] the
    calculator answers, while the driver cannot encode the order:
    [create_order] raises [OverflowError] from [insert_one] and nothing
    is stored.  For amount 0 the calculator answers, while the route
    refuses the body. *)
Example calc_total_answers_alone :
  let big := Sample.req Sample.pid (2 ^ 63) (Some "qris"%string) in
  let none := Sample.req Sample.pid 0 (Some "qris"%string) in
  (∃ r, calc_total (CalcIn.mk 100000 (2 ^ 63) 2 1000) = Ok r) ∧
  post_orders 10 11 (OrderBody.mk big None None) Sample.db0
    = (Raise OverflowError, Sample.db0) ∧
  calc_total (CalcIn.mk 100000 0 2 1000) = Ok (CalcOut.mk 0 1000) ∧
  post_orders 10 11 (OrderBody.mk none None None) Sample.db0
    = (Raise RequestValidationError, Sample.db0).
Proof.
  cbv zeta. split_and!.
  - eexists. vm_compute. reflexivity.
  - vm_compute. reflexivity.
  - vm_compute. reflexivity.
  - vm_compute. reflexivity.
Qed.

(** C9 as stated fails on the base: for price 0.004 and amount 1
    [calc_total] returns base 0.0, while the base of [create_order] is
    0.004; the totals agree. *)
Lemma calc_total_base_is_rounded :
  let req := Sample.req "0a0a0a0a0a0a0a0a0a0a0a0a" 1 (Some "cash"%string) in
  let payload := CalcIn.mk (Product.price Sample.cheap) 1 0 0 in
  find_one (λ p, Some (Product._id p) = ObjectId_of_str (Order.product_id req))
    (product Sample.db0) = Some Sample.cheap ∧
  active_method (Order.payment_method_code req) Sample.db0 = Some Sample.cash ∧
  calc_total payload = Ok (CalcOut.mk 0 0) ∧
  float_mul_int (Product.price Sample.cheap) (Order.amount req)
    = Ok 0x1.0624dd2f1a9fcp-8%float ∧
  (0 =? 0x1.0624dd2f1a9fcp-8)%float = false ∧
  OrderOut.total_price <$>
    (match fst (create_order 10 11 req Sample.db0) with
     | Ok out => Some out
     | Raise _ => None
     end) = Some 0%float.
Proof. cbv zeta. split_and!; vm_compute; reflexivity. Qed.

(** ** Server-side fields *)

Lemma create_order_with_status_total created updated req db s t :
  create_order created updated (with_status_total s t req) db
  = create_order created updated req db.
Proof. reflexivity. Qed.

(** C10: whatever the request body carries under [status],
    [total_price], [created_at] and [updated_at], the order that
    [POST /api/orders] stores has status "pending", the rounded total
    computed from the product, the amount and the payment method, and
    the two clock readings as [created_at] and [updated_at]; other
    values under the four keys give the same stored order. *)
Theorem post_orders_server_fields created updated body db out db' :
  post_orders created updated body db = (Ok out, db') →
  let req := OrderBody.fields body in
  ∃ doc prod base,
    db' = with_order (λ c, c ++ [doc]) db ∧
    OrderOut.id out = str_ObjectId (OrderDoc._id doc) ∧
    OrderDoc.status doc = pending ∧
    Some prod = find_one (λ p, Some (Product._id p) = ObjectId_of_str (Order.product_id req))
                  (product db) ∧
    float_mul_int (Product.price prod) (Order.amount req) = Ok base ∧
    OrderDoc.total_price doc
      = round2 (order_total base (active_method (Order.payment_method_code req) db)) ∧
    OrderDoc.created_at doc = created ∧
    OrderDoc.updated_at doc = updated ∧
    ∀ s t ca ua,
      post_orders created updated (with_client_values s t ca ua body) db = (Ok out, db').
Proof.
  intros Hrun. cbv zeta. set (req := OrderBody.fields body).
  unfold post_orders in Hrun. fold req in Hrun.
  destruct (Order.valid req) eqn:Hvalid; [|done].
  destruct (create_order_inv _ _ _ _ _ _ Hrun) as (pid & prod & base & Hpid & Hprod & Hbase & Hamt).
  pose proof (create_order_run created updated req db pid prod base Hpid Hprod Hbase Hamt) as Heq.
  cbv zeta in Heq. rewrite Heq in Hrun. injection Hrun as <- <-.
  eexists _, prod, base. split_and!; try done.
  - by rewrite stored_order_id.
  - by destruct (mock_url _ _).
  - unfold oid in Hpid. destruct (ObjectId_of_str _) as [i|]; [|done].
    injection Hpid as ->. rewrite <- Hprod. unfold find_one. f_equal.
    apply list_find_ext. intros p. split; congruence.
  - apply stored_order_total.
  - by destruct (mock_url _ _).
  - by destruct (mock_url _ _).
  - intros s t ca ua. unfold post_orders, with_client_values. simpl. fold req.
    change (Order.valid (with_status_total s t req)) with (Order.valid req).
    by rewrite Hvalid, create_order_with_status_total.
Qed.

(** ** The payment webhook *)

Lemma find_one_alter {A} (P : A → Prop) `{!∀ x, Decision (P x)}
    (f : A → A) (k : nat) (c : list A) (x : A) :
  (∀ y, P (f y) ↔ P y) →
  find_one P c = Some x →
  find_one P (alter f k c) = Some x ∨ find_one P (alter f k c) = Some (f x).
Proof.
  intros Hf. unfold find_one. rewrite list_find_alter by done.
  destruct (list_find P c) as [[i y]|]; simpl; [|done].
  intros [= ->]. destruct (decide (i = k)); auto.
Qed.

Lemma find_one_alter_None {A} (P : A → Prop) `{!∀ x, Decision (P x)}
    (f : A → A) (k : nat) (c : list A) :
  (∀ y, P (f y) ↔ P y) →
  find_one P c = None → find_one P (alter f k c) = None.
Proof.
  intros Hf. unfold find_one. rewrite list_find_alter by done.
  by destruct (list_find P c) as [[i y]|].
Qed.

Lemma match_order_elem ref db o : match_order ref db = Some o → o ∈ order db.
Proof.
  unfold match_order.
  destruct (find_one _ (order db)) as [o'|] eqn:E1.
  - intros [= <-]. by apply find_one_Some in E1 as [? _].
  - destruct (ObjectId_of_str ref) as [i|]; [|done].
    intros E2. by apply find_one_Some in E2 as [? _].
Qed.

Lemma payment_webhook_run now payload q db ref :
  py_or (WebhookIn.reference payload) q = Some ref →
  ref ≠ ""%string →
  payment_webhook now payload q db =
  match match_order ref db with
  | Some o =>
      (Ok true,
       snd (update_one_order (OrderDoc._id o)
              (OrderDoc.set_status (Status_of_webhook (WebhookIn.status payload)) now) db))
  | None => (Raise (HTTPException 404 "Order not found"), db)
  end.
Proof.
  intros Href Hne. unfold payment_webhook. rewrite Href.
  apply String.eqb_neq in Hne. rewrite Hne.
  unfold match_order, bind, reads, try_except, lift, oid, ret, raise.
  destruct (find_one _ (order db)) as [o|]; [done|].
  destruct (ObjectId_of_str ref) as [i|]; [|done].
  by destruct (find_one _ (order db)) as [o|].
Qed.

Lemma payment_webhook_inv now payload q db r db' :
  payment_webhook now payload q db = (Ok r, db') →
  ∃ ref o, py_or (WebhookIn.reference payload) q = Some ref ∧ ref ≠ ""%string ∧
           match_order ref db = Some o.
Proof.
  intros Hrun.
  destruct (py_or (WebhookIn.reference payload) q) as [ref|] eqn:Href.
  - destruct (String.eqb ref "") eqn:Hne.
    + unfold payment_webhook, raise in Hrun. rewrite Href in Hrun.
      cbv beta iota in Hrun. by rewrite Hne in Hrun.
    + apply String.eqb_neq in Hne.
      rewrite (payment_webhook_run _ _ _ _ ref Href Hne) in Hrun.
      destruct (match_order ref db) as [o|] eqn:Hm; [|done]. by exists ref, o.
  - unfold payment_webhook, raise in Hrun. rewrite Href in Hrun. by simpl in Hrun.
Qed.

(** The update of a stored order changes exactly one position. *)
Lemma update_one_order_elem i f db o :
  o ∈ order db → OrderDoc._id o = i →
  ∃ k o', list_find (λ d, OrderDoc._id d = i) (order db) = Some (k, o') ∧
          order db !! k = Some o' ∧ OrderDoc._id o' = i ∧
          update_one_order i f db = (Ok tt, with_order (alter f k) db).
Proof.
  intros Hin Hid.
  destruct (list_find_elem_of (λ d, OrderDoc._id d = i) (order db) o Hin Hid)
    as [[k o'] Hfind].
  exists k, o'. pose proof Hfind as (Hk & Hid' & _)%list_find_Some.
  split_and!; [done..|].
  unfold update_one_order, writes, with_order. by rewrite Hfind.
Qed.

Lemma alter_insert (f : OrderDoc.t → OrderDoc.t) (k : nat) (c : list OrderDoc.t) o :
  c !! k = Some o → alter f k c = <[k := f o]> c.
Proof.
  revert k. induction c as [|x c IH]; intros [|k] Hk; try done.
  - by injection Hk as ->.
  - simpl. f_equal. by apply IH.
Qed.

Lemma Forall2_alter (R : relation OrderDoc.t) (f : OrderDoc.t → OrderDoc.t) k c :
  (∀ x, R x x) → (∀ x, R x (f x)) → Forall2 R c (alter f k c).
Proof.
  intros Hrefl Hf. revert k. induction c as [|x c IH]; intros [|k]; simpl.
  - constructor.
  - constructor.
  - constructor; [apply Hf|]. clear IH. induction c; constructor; auto.
  - constructor; [apply Hrefl|apply IH].
Qed.

Lemma payment_webhook_ok now payload q db ref o :
  py_or (WebhookIn.reference payload) q = Some ref →
  ref ≠ ""%string →
  match_order ref db = Some o →
  ∃ k o',
    list_find (λ d, OrderDoc._id d = OrderDoc._id o) (order db) = Some (k, o') ∧
    payment_webhook now payload q db =
      (Ok true,
       with_order
         (alter (OrderDoc.set_status (Status_of_webhook (WebhookIn.status payload)) now) k)
         db).
Proof.
  intros Href Hne Hm. rewrite (payment_webhook_run _ _ _ _ ref Href Hne), Hm.
  destruct (update_one_order_elem (OrderDoc._id o)
              (OrderDoc.set_status (Status_of_webhook (WebhookIn.status payload)) now)
              db o (match_order_elem _ _ _ Hm) eq_refl)
    as (k & o' & Hfind & _ & _ & ->).
  by exists k, o'.
Qed.

Lemma match_order_alter f k ref db o :
  (∀ d, OrderDoc.payment_reference (f d) = OrderDoc.payment_reference d) →
  (∀ d, OrderDoc._id (f d) = OrderDoc._id d) →
  match_order ref db = Some o →
  ∃ o1, match_order ref (with_order (alter f k) db) = Some o1 ∧
        OrderDoc._id o1 = OrderDoc._id o.
Proof.
  intros Href Hid.
  assert (Hr : ∀ y, OrderDoc.payment_reference (f y) = Some ref
                    ↔ OrderDoc.payment_reference y = Some ref)
    by (intros y; by rewrite Href).
  assert (Hi : ∀ i y, OrderDoc._id (f y) = i ↔ OrderDoc._id y = i)
    by (intros i y; by rewrite Hid).
  unfold match_order. simpl.
  destruct (find_one (λ d, OrderDoc.payment_reference d = Some ref) (order db))
    as [o'|] eqn:E1.
  - intros [= <-].
    destruct (find_one_alter _ f k _ _ Hr E1) as [->| ->]; eauto.
  - rewrite (find_one_alter_None _ f k _ Hr E1).
    destruct (ObjectId_of_str ref) as [i|]; [|done].
    intros E2.
    destruct (find_one_alter _ f k _ _ (Hi i) E2) as [->| ->]; eauto.
Qed.

Lemma payment_webhook_falsy_reference now payload q db :
  truthy (py_or (WebhookIn.reference payload) q) = false →
  payment_webhook now payload q db = (Raise (HTTPException 400 "Missing reference"), db).
Proof.
  unfold payment_webhook, raise.
  destruct (py_or (WebhookIn.reference payload) q) as [ref|]; [|done].
  simpl. by intros ->%negb_false_iff.
Qed.

(** C4: a successful call of [payment_webhook] leaves every collection
    but [order] as it was, keeps the number and the order of the stored
    orders, and every stored order keeps every field but [status] and
    [updated_at]; the one order that changes has the id of the order
    the reference matches, and is given the status of the call and the
    clock reading. *)
Theorem payment_webhook_frame now payload q db r db' :
  payment_webhook now payload q db = (Ok r, db') →
  same_but_order db db' ∧
  Forall2 same_but_status_updated_at (order db) (order db') ∧
  ∃ ref m k o,
    py_or (WebhookIn.reference payload) q = Some ref ∧
    match_order ref db = Some m ∧
    order db !! k = Some o ∧
    OrderDoc._id o = OrderDoc._id m ∧
    order db' =
      <[k := OrderDoc.set_status (Status_of_webhook (WebhookIn.status payload)) now o]>
        (order db).
Proof.
  intros Hrun.
  destruct (payment_webhook_inv _ _ _ _ _ _ Hrun) as (ref & m & Href & Hne & Hm).
  destruct (payment_webhook_ok now payload q db ref m Href Hne Hm)
    as (k & o & Hfind & Heq).
  rewrite Heq in Hrun. injection Hrun as <- <-.
  apply list_find_Some in Hfind as (Hk & Hid & _).
  split_and!.
  - done.
  - simpl. by apply Forall2_alter.
  - exists ref, m, k, o. split_and!; [done..|]. simpl. by apply alter_insert.
Qed.

(** With unique ids the order that changes is the order matched. *)
Lemma unique_ids_same_order db k o m :
  unique_ids db → order db !! k = Some o → m ∈ order db →
  OrderDoc._id o = OrderDoc._id m → o = m.
Proof.
  unfold unique_ids. intros Hnd Hk [j Hj]%list_elem_of_lookup_1 Hid.
  assert (k = j) as ->; [|congruence].
  apply (NoDup_lookup _ k j (OrderDoc._id o) Hnd); rewrite list_lookup_fmap.
  - by rewrite Hk.
  - by rewrite Hj, Hid.
Qed.

Lemma alter_ids (f : OrderDoc.t → OrderDoc.t) (k : nat) (c : list OrderDoc.t) :
  (∀ d, OrderDoc._id (f d) = OrderDoc._id d) →
  OrderDoc._id <$> alter f k c = OrderDoc._id <$> c.
Proof.
  intros Hf. revert k. induction c as [|x c IH]; intros [|k]; [done..| |].
  - simpl. by rewrite Hf.
  - change (alter f (S k) (x :: c)) with (x :: alter f k c).
    by rewrite !fmap_cons, IH.
Qed.

(** C5: after a successful call of [payment_webhook], the same call
    again succeeds, and the store it leaves differs from the store
    after the first call only in the [updated_at] of one order, whose
    status both calls set. *)
Theorem payment_webhook_idempotent now1 now2 payload q db r db1 :
  payment_webhook now1 payload q db = (Ok r, db1) →
  ∃ db2,
    payment_webhook now2 payload q db1 = (Ok true, db2) ∧
    same_but_order db1 db2 ∧
    Forall2 same_but_updated_at (order db1) (order db2) ∧
    ∃ k o,
      order db1 !! k = Some o ∧
      OrderDoc.status o = Status_of_webhook (WebhookIn.status payload) ∧
      order db2 = <[k := OrderDoc.set_updated_at now2 o]> (order db1).
Proof.
  intros Hrun.
  destruct (payment_webhook_inv _ _ _ _ _ _ Hrun) as (ref & o & Href & Hne & Hm).
  destruct (payment_webhook_ok now1 payload q db ref o Href Hne Hm)
    as (k & o' & Hfind & Heq).
  rewrite Heq in Hrun. injection Hrun as _ <-.
  set (s := Status_of_webhook (WebhookIn.status payload)) in *.
  destruct (match_order_alter (OrderDoc.set_status s now1) k ref db o) as (o1 & Hm1 & Hid1);
    [done..|].
  destruct (payment_webhook_ok now2 payload q _ ref o1 Href Hne Hm1)
    as (k1 & o1' & Hfind1 & Heq1).
  fold s in Heq1. rewrite Hid1 in Hfind1. simpl in Hfind1.
  rewrite list_find_alter, Hfind in Hfind1 by done. simpl in Hfind1.
  rewrite decide_True in Hfind1 by done. injection Hfind1 as <- <-.
  apply list_find_Some in Hfind as (Hk & _ & _).
  eexists. split; [exact Heq1|]. split_and!.
  - done.
  - simpl.
    rewrite (list_alter_ext (OrderDoc.set_status s now2) (OrderDoc.set_updated_at now2)
               _ (alter (OrderDoc.set_status s now1) k (order db)) k).
    + by apply Forall2_alter.
    + intros x. rewrite list_lookup_alter_eq, Hk. by intros [= <-].
    + done.
  - exists k, (OrderDoc.set_status s now1 o'). split_and!.
    + simpl. by rewrite list_lookup_alter_eq, Hk.
    + done.
    + simpl.
      rewrite (alter_insert _ k _ (OrderDoc.set_status s now1 o')); [done|].
      by rewrite list_lookup_alter_eq, Hk.
Qed.

(** C7: when the reference supplied matches the [payment_reference] of
    no stored order and is the id of none, well-formed or not,
    [payment_webhook] fails with NotFound and writes nothing. *)
Theorem payment_webhook_unknown_reference now payload q db ref :
  py_or (WebhookIn.reference payload) q = Some ref →
  ref ≠ ""%string →
  (∀ o, o ∈ order db → OrderDoc.payment_reference o ≠ Some ref) →
  (∀ o, o ∈ order db → ObjectId_of_str ref ≠ Some (OrderDoc._id o)) →
  ∃ e, payment_webhook now payload q db = (Raise e, db) ∧ NotFound e.
Proof.
  intros Href Hne Hpay Hid.
  rewrite (payment_webhook_run _ _ _ _ ref Href Hne).
  assert (match_order ref db = None) as ->.
  { unfold match_order.
    assert (find_one (λ d, OrderDoc.payment_reference d = Some ref) (order db) = None)
      as -> by (by apply find_one_None).
    destruct (ObjectId_of_str ref) as [i|]; [|done].
    apply find_one_None. intros o Hin Ho. apply (Hid o Hin). by rewrite Ho. }
  eexists. split; [done|]. by eexists.
Qed.

(** C8: when the body carries no reference and the query string none
    either, [payment_webhook] fails with BadRequest and writes nothing. *)
Theorem payment_webhook_missing_reference now payload q db :
  WebhookIn.reference payload = None →
  q = None →
  ∃ e, payment_webhook now payload q db = (Raise e, db) ∧ BadRequest e.
Proof.
  intros Hbody ->. eexists. split.
  - apply payment_webhook_falsy_reference. by rewrite Hbody.
  - by eexists.
Qed.

(** ** Invariants of the order store *)

(** A handler that raises has written nothing. *)
Lemma create_order_raise created updated req db e db' :
  create_order created updated req db = (Raise e, db') → db' = db.
Proof.
  unfold create_order, bind, lift, reads, raise.
  destruct (oid (Order.product_id req)) as [pid|]; [|by intros [= _ <-]].
  destruct (find_one _ (product db)) as [prod|]; [|by intros [= _ <-]].
  destruct (float_mul_int _ _) as [base|]; [|by intros [= _ <-]].
  cbv beta iota. unfold insert_one_order. rewrite int64_amount.
  destruct (int64 (Order.amount req)); [|by intros [= _ <-]].
  destruct (mock_gateway _); simpl; done.
Qed.

Lemma payment_webhook_raise now payload q db e db' :
  payment_webhook now payload q db = (Raise e, db') → db' = db.
Proof.
  intros Hrun.
  destruct (truthy (py_or (WebhookIn.reference payload) q)) eqn:Ht.
  - destruct (py_or (WebhookIn.reference payload) q) as [ref|] eqn:Href; [|done].
    simpl in Ht. apply negb_true_iff, String.eqb_neq in Ht.
    rewrite (payment_webhook_run _ _ _ _ ref Href Ht) in Hrun.
    destruct (match_order ref db); [done|]. by injection Hrun as _ <-.
  - rewrite payment_webhook_falsy_reference in Hrun by done.
    by injection Hrun as _ <-.
Qed.

(** Both handlers keep the ids of the stored orders unique. *)
Lemma create_order_unique_ids created updated req db :
  unique_ids db → unique_ids (snd (create_order created updated req db)).
Proof.
  intros Hnd.
  destruct (create_order created updated req db) as [[out|e] db'] eqn:Hrun.
  - destruct (create_order_inv _ _ _ _ _ _ Hrun) as (pid & prod & base & Hpid & Hprod & Hbase & Hamt).
    rewrite (create_order_run created updated req db pid prod base Hpid Hprod Hbase Hamt) in Hrun.
    injection Hrun as _ <-. unfold unique_ids. simpl.
    rewrite fmap_app. apply NoDup_app. split_and!; [done| |apply NoDup_singleton].
    intros i Hi. simpl. rewrite stored_order_id.
    intros ->%list_elem_of_singleton. by apply new_ObjectId_fresh in Hi.
  - by rewrite (create_order_raise _ _ _ _ _ _ Hrun).
Qed.

Lemma payment_webhook_unique_ids now payload q db :
  unique_ids db → unique_ids (snd (payment_webhook now payload q db)).
Proof.
  intros Hnd.
  destruct (payment_webhook now payload q db) as [[r|e] db'] eqn:Hrun.
  - destruct (payment_webhook_inv _ _ _ _ _ _ Hrun) as (ref & m & Href & Hne & Hm).
    destruct (payment_webhook_ok now payload q db ref m Href Hne Hm)
      as (k & o & _ & Heq).
    rewrite Heq in Hrun. injection Hrun as _ <-.
    unfold unique_ids. simpl. by rewrite alter_ids.
  - by rewrite (payment_webhook_raise _ _ _ _ _ _ Hrun).
Qed.

Lemma alter_elem (f : OrderDoc.t → OrderDoc.t) (k : nat) (c : list OrderDoc.t) x :
  x ∈ alter f k c → x ∈ c ∨ ∃ y, y ∈ c ∧ x = f y.
Proof.
  revert k. induction c as [|y c IH]; intros [|k]; simpl; auto.
  - intros [->|Hx]%elem_of_cons.
    + right. exists y. split; [by left|done].
    + left. by right.
  - intros [->|Hx]%elem_of_cons; [left; by left|].
    destruct (IH k Hx) as [?|(z & ? & ->)].
    + left. by right.
    + right. exists z. split; [by right|done].
Qed.

(** Both handlers keep the product ids of the stored orders well-formed:
    [create_order] stores the id only once [oid] has taken it. *)
Lemma create_order_product_ids_valid created updated req db :
  product_ids_valid db → product_ids_valid (snd (create_order created updated req db)).
Proof.
  intros Hvalid.
  destruct (create_order created updated req db) as [[out|e] db'] eqn:Hrun.
  - destruct (create_order_inv _ _ _ _ _ _ Hrun) as (pid & prod & base & Hpid & Hprod & Hbase & Hamt).
    rewrite (create_order_run created updated req db pid prod base Hpid Hprod Hbase Hamt) in Hrun.
    injection Hrun as _ <-. simpl.
    intros o [Ho| ->%list_elem_of_singleton]%elem_of_app; [by apply Hvalid|].
    intros [_ Hbad]. unfold oid in Hpid.
    assert (OrderDoc.product_id
              (stored_order req prod
                 (order_total base (active_method (Order.payment_method_code req) db))
                 created updated
                 (mock_url (active_method (Order.payment_method_code req) db)
                    (new_ObjectId (OrderDoc._id <$> order db)))
                 (new_ObjectId (OrderDoc._id <$> order db)))
            = Order.product_id req) as Hpid'
      by (by destruct (mock_url _ _)).
    rewrite Hpid' in Hbad. by rewrite Hbad in Hpid.
  - by rewrite (create_order_raise _ _ _ _ _ _ Hrun).
Qed.

Lemma payment_webhook_product_ids_valid now payload q db :
  product_ids_valid db → product_ids_valid (snd (payment_webhook now payload q db)).
Proof.
  intros Hvalid.
  destruct (payment_webhook now payload q db) as [[r|e] db'] eqn:Hrun.
  - destruct (payment_webhook_inv _ _ _ _ _ _ Hrun) as (ref & m & Href & Hne & Hm).
    destruct (payment_webhook_ok now payload q db ref m Href Hne Hm)
      as (k & o & _ & Heq).
    rewrite Heq in Hrun. injection Hrun as _ <-.
    intros o' [Ho'|(x & Hx & ->)]%alter_elem; [by apply Hvalid|].
    exact (Hvalid x Hx).
  - by rewrite (payment_webhook_raise _ _ _ _ _ _ Hrun).
Qed.

(** ** The ranking *)

#[global] Instance orders_desc_trans : Transitive orders_desc.
Proof. intros g h i. unfold orders_desc. lia. Qed.

(** An element the first [n] of a sorted arrangement leave out comes
    after each of them, and they are [n]. *)
Lemma sorted_take_top {A} (R : relation A) `{!Transitive R} (l l' : list A) (n : nat) (x : A) :
  l' ≡ₚ l → Sorted R l' → x ∈ l →
  x ∈ take n l' ∨ (length (take n l') = n ∧ ∀ y, y ∈ take n l' → R y x).
Proof.
  intros Hperm Hs%Sorted_StronglySorted Hx; [|done]. rewrite <- Hperm in Hx.
  rewrite <- (take_drop n l') in Hx, Hs.
  apply elem_of_app in Hx as [Hx|Hx]; [by left|right]. split.
  - rewrite length_take. apply Nat.min_l.
    destruct (decide (n ≤ length l')%nat); [done|].
    rewrite drop_ge in Hx by lia. by apply elem_of_nil in Hx.
  - intros y Hy. by eapply StronglySorted_app_1_elem_of.
Qed.

Section ranking.
Context {Σ : Summation} {Ω : Sorting}.

(** *** The [$group] stage *)

Lemma orders_of_snoc_eq pid c o :
  OrderDoc.product_id o = pid → orders_of pid (c ++ [o]) = orders_of pid c ++ [o].
Proof.
  intros Hp. unfold orders_of. rewrite filter_app. f_equal.
  by rewrite filter_cons_True.
Qed.

Lemma orders_of_snoc_ne pid c o :
  OrderDoc.product_id o ≠ pid → orders_of pid (c ++ [o]) = orders_of pid c.
Proof.
  intros Hp. unfold orders_of. rewrite filter_app.
  rewrite (filter_cons_False _ o) by done. by rewrite filter_nil, app_nil_r.
Qed.

Lemma group_of_snoc_eq pid c o :
  OrderDoc.product_id o = pid →
  group_of pid (c ++ [o]) =
  Group.mk pid (Group.orders (group_of pid c) + 1)
           (sum_add (Group.revenue (group_of pid c)) (OrderDoc.total_price o)).
Proof.
  intros Hp. unfold group_of, revenue_state. rewrite orders_of_snoc_eq by done.
  rewrite length_app, foldl_app. simpl. f_equal. lia.
Qed.

Lemma group_of_snoc_ne pid c o :
  OrderDoc.product_id o ≠ pid → group_of pid (c ++ [o]) = group_of pid c.
Proof.
  intros Hp. unfold group_of, revenue_state. by rewrite orders_of_snoc_ne.
Qed.

Lemma group_add_ids o gs :
  Group._id <$> group_add o gs =
  if decide (OrderDoc.product_id o ∈ Group._id <$> gs)
  then Group._id <$> gs
  else (Group._id <$> gs) ++ [OrderDoc.product_id o].
Proof.
  induction gs as [|g gs IH].
  - destruct (decide _) as [Hin|_]; [|done]. by apply elem_of_nil in Hin.
  - simpl group_add. rewrite fmap_cons.
    destruct (decide (Group._id g = OrderDoc.product_id o)) as [Hg|Hg].
    + rewrite decide_True; [done|]. rewrite <- Hg. apply elem_of_cons. by left.
    + rewrite fmap_cons, IH.
      destruct (decide (OrderDoc.product_id o ∈ Group._id <$> gs)) as [Hin|Hin].
      * rewrite decide_True; [done|]. apply elem_of_cons. by right.
      * rewrite decide_False; [done|].
        intros [Heq|Hin']%elem_of_cons; [by apply Hg|by apply Hin].
Qed.

Lemma group_add_elem o gs g' :
  g' ∈ group_add o gs →
  (g' ∈ gs ∧ Group._id g' ≠ OrderDoc.product_id o) ∨
  (∃ g, g ∈ gs ∧ Group._id g = OrderDoc.product_id o ∧
        g' = Group.mk (Group._id g) (Group.orders g + 1)
                      (sum_add (Group.revenue g) (OrderDoc.total_price o))) ∨
  ((OrderDoc.product_id o ∉ Group._id <$> gs) ∧
   g' = Group.mk (OrderDoc.product_id o) 1
                 (sum_add sum_init (OrderDoc.total_price o))) ∨
  (g' ∈ gs ∧ ¬ NoDup (Group._id <$> gs)).
Proof.
  induction gs as [|g gs IH]; simpl.
  - intros ->%list_elem_of_singleton. right. right. left.
    split; [apply not_elem_of_nil|done].
  - destruct (decide (Group._id g = OrderDoc.product_id o)) as [Hg|Hg].
    + intros [->|Hin]%elem_of_cons.
      * right. left. exists g. split_and!; [by left|done..].
      * destruct (decide (Group._id g' = OrderDoc.product_id o)) as [Hg'|Hg'].
        -- right. right. right. split; [by right|].
           intros Hnd. apply NoDup_cons in Hnd as [Hnotin _]. apply Hnotin.
           rewrite Hg, <- Hg'. apply list_elem_of_fmap. by exists g'.
        -- left. split; [by right|done].
    + intros [->|Hin]%elem_of_cons.
      * left. split; [by left|done].
      * destruct (IH Hin) as [[? ?]|[(g0 & ? & ? & ?)|[[Hnotin ?]|[? Hnd]]]].
        -- left. split; [by right|done].
        -- right. left. exists g0. split_and!; [by right|done..].
        -- right. right. left. split; [|done].
           intros [?|?]%elem_of_cons; [by apply Hg|by apply Hnotin].
        -- right. right. right. split; [by right|].
           intros Hnd'. apply NoDup_cons in Hnd' as [_ ?]. by apply Hnd.
Qed.

Lemma grouped_nil : grouped [] [].
Proof.
  split.
  - constructor.
  - intros g Hg. by apply elem_of_nil in Hg.
  - intros o Ho. by apply elem_of_nil in Ho.
Qed.

Lemma grouped_snoc c gs o :
  grouped c gs → grouped (c ++ [o]) (group_add o gs).
Proof.
  intros [Hnd Hsound Hcomplete]. split.
  - rewrite group_add_ids. destruct (decide _) as [Hin|Hin]; [done|].
    apply NoDup_app. split_and!; [done| |apply NoDup_singleton].
    intros x Hx ->%list_elem_of_singleton. by apply Hin.
  - intros g' Hg'.
    destruct (group_add_elem o gs g' Hg')
      as [[Hin Hne]|[(g & Hin & Hid & ->)|[[Hnotin ->]|[_ Hdup]]]].
    + destruct (Hsound g' Hin) as [Hg Hnonempty].
      rewrite group_of_snoc_ne, orders_of_snoc_ne by done. done.
    + destruct (Hsound g Hin) as [Hg Hnonempty]. simpl.
      rewrite group_of_snoc_eq, orders_of_snoc_eq by done. split.
      * by rewrite <- Hg.
      * intros Hnil. by apply app_eq_nil in Hnil as [_ ?].
    + simpl. rewrite group_of_snoc_eq, orders_of_snoc_eq by done.
      assert (orders_of (OrderDoc.product_id o) c = []) as Hnone.
      { destruct (orders_of (OrderDoc.product_id o) c) as [|o' l] eqn:E; [done|].
        exfalso. apply Hnotin.
        assert (o' ∈ orders_of (OrderDoc.product_id o) c) as Ho'
          by (rewrite E; by left).
        apply list_elem_of_filter in Ho' as [<- Ho']. by apply Hcomplete. }
      split.
      * unfold group_of, revenue_state. by rewrite Hnone.
      * intros Hnil. by apply app_eq_nil in Hnil as [_ ?].
    + done.
  - intros o' Ho'. rewrite group_add_ids.
    apply elem_of_app in Ho' as [Ho'| ->%list_elem_of_singleton];
      destruct (decide _) as [Hin|Hin].
    + by apply Hcomplete.
    + apply elem_of_app. left. by apply Hcomplete.
    + done.
    + apply elem_of_app. right. by apply list_elem_of_singleton.
Qed.

Lemma group_states_grouped c : grouped c (foldl (λ gs o, group_add o gs) [] c).
Proof.
  induction c as [|o c IH] using rev_ind.
  - apply grouped_nil.
  - rewrite foldl_app. by apply grouped_snoc.
Qed.



(** Every row of the stage counts and sums the orders of its product,
    which has at least one. *)
Lemma group_stage_sound c r :
  r ∈ group_stage c →
  Group.orders r = Z.of_nat (length (orders_of (Group._id r) c)) ∧
  Group.revenue r = revenue_of (Group._id r) c ∧
  orders_of (Group._id r) c ≠ [].
Proof.
  unfold group_stage. intros (g & -> & Hg)%list_elem_of_fmap.
  destruct (grouped_sound _ _ (group_states_grouped c) g Hg) as [Heq Hne].
  simpl. split_and!; [|unfold revenue_of|done].
  - by rewrite Heq at 1.
  - by rewrite Heq at 1.
Qed.

(** *** The [$sort] and [$limit] stages *)

Lemma Sorted_take {A} (R : relation A) (l : list A) (n : nat) :
  Sorted R l → Sorted R (take n l).
Proof.
  intros Hl. revert n. induction Hl as [|x l Hl IH Hhd]; intros [|n]; simpl;
    try constructor.
  - apply IH.
  - destruct Hhd as [|y l' Hxy]; [destruct n; constructor|].
    destruct n; constructor. done.
Qed.

Lemma limit_stage_Ok limit gs res :
  limit_stage limit gs = Ok res →
  0 < limit ∧ limit < 2 ^ 63 ∧ res = take (Z.to_nat limit) gs.
Proof.
  unfold limit_stage.
  destruct (2 ^ 63 <=? limit) eqn:Hhi; [done|].
  destruct (limit <? - 2 ^ 63) eqn:Hneg; [done|]. simpl.
  destruct (limit <=? 0) eqn:Hlo; [done|].
  intros [= <-]. split_and!; [lia..|done].
Qed.


(** *** The loop over the rows *)

Lemma top_entry_run r db :
  top_entry r db =
  if decide (Group._id r = ""%string)
  then (Ok (TopEntry.mk (Group._id r) None (Group.orders r)
                        (round2 (float_or_0 (Group.revenue r)))), db)
  else match ObjectId_of_str (Group._id r) with
       | Some _ => (Ok (entry_of db r), db)
       | None => (Raise (HTTPException 400 "Invalid id"), db)
       end.
Proof.
  unfold top_entry, bind, lift, reads, ret, oid, entry_of. simpl.
  destruct (decide (Group._id r = ""%string)) as [->|Hne]; [done|].
  apply String.eqb_neq in Hne. rewrite Hne. simpl.
  destruct (ObjectId_of_str (Group._id r)) as [i|]; [|done].
  do 3 f_equal. unfold find_one. do 2 f_equal.
  apply list_find_ext. intros p. split; congruence.
Qed.

Lemma for_each_top_entry rs db :
  match for_each top_entry rs db with
  | (Ok out, db') =>
      db' = db ∧
      Forall2 (λ r e, TopEntry.product_id e = Group._id r ∧
                      TopEntry.orders e = Group.orders r ∧
                      TopEntry.revenue e = round2 (float_or_0 (Group.revenue r))) rs out
  | (Raise e, db') =>
      db' = db ∧
      ∃ r, r ∈ rs ∧ Group._id r ≠ ""%string ∧ ObjectId_of_str (Group._id r) = None
  end.
Proof.
  induction rs as [|r rs IH]; simpl.
  - split; [done|constructor].
  - unfold bind at 1. rewrite top_entry_run.
    destruct (decide (Group._id r = ""%string)) as [Hr|Hr].
    + unfold bind, ret.
      destruct (for_each top_entry rs db) as [[out|e] db'].
      * destruct IH as [-> IH]. split; [done|]. by constructor.
      * destruct IH as [-> (r' & ? & ? & ?)]. split; [done|].
        exists r'. split_and!; [by right|done..].
    + destruct (ObjectId_of_str (Group._id r)) as [i|] eqn:Hi.
      * unfold bind, ret.
        destruct (for_each top_entry rs db) as [[out|e] db'].
        -- destruct IH as [-> IH]. split; [done|]. by constructor.
        -- destruct IH as [-> (r' & ? & ? & ?)]. split; [done|].
           exists r'. split_and!; [by right|done..].
      * split; [done|]. exists r. split_and!; [by left|done..].
Qed.


Lemma sort_limit_elem n limit r c :
  r ∈ take n (sort_stage limit (group_stage c)) → r ∈ group_stage c.
Proof.
  intros (i & Hi & _)%elem_of_take. apply list_elem_of_lookup_2 in Hi.
  unfold sort_stage in Hi. by rewrite sort_rows_Permutation in Hi.
Qed.






(** With a positive 64-bit limit, on a store whose product ids are
    well-formed, [top_ranking] returns. *)
Lemma top_ranking_returns (limit : option Z) (db : DB) :
  product_ids_valid db →
  0 < default 10 limit < 2 ^ 63 →
  ∃ out, top_ranking limit db = (Ok out, db).
Proof.
  intros Hvalid Hlimit. unfold top_ranking, bind, aggregate_order, limit_stage.
  destruct (2 ^ 63 <=? default 10 limit) eqn:Hhi; [lia|].
  destruct (default 10 limit <? - 2 ^ 63) eqn:Hneg; [lia|].
  destruct (default 10 limit <=? 0) eqn:Hlo; [lia|]. simpl.
  set (res := take _ _).
  pose proof (for_each_top_entry res db) as Hloop.
  destruct (for_each top_entry res db) as [[out|e] db'].
  - destruct Hloop as [-> _]. by exists out.
  - destruct Hloop as [_ (r & Hr & Hne & Hbad)]. exfalso.
    apply sort_limit_elem in Hr.
    destruct (group_stage_sound _ _ Hr) as (_ & _ & Hnonempty).
    destruct (orders_of (Group._id r) (order db)) as [|o l] eqn:E; [done|].
    assert (o ∈ orders_of (Group._id r) (order db)) as Ho by (rewrite E; by left).
    apply list_elem_of_filter in Ho as [Hid Ho].
    apply (Hvalid o Ho). unfold malformed_product_id. by rewrite Hid.
Qed.

End ranking.

(** The example of the specification: three orders of one product and
    five of another; the top 1 is the product with five. *)
Example top_ranking_top_1 :
  fst (top_ranking (Σ := ieee_sum) (Ω := merge_sorting) (Some 1) Sample.ranking_db)
  = Ok [TopEntry.mk Sample.cheap_pid (Some "Sticker"%string) 5 20%float].
Proof. vm_compute. reflexivity. Qed.

Example top_ranking_limit_0 :
  fst (top_ranking (Σ := ieee_sum) (Ω := merge_sorting) (Some 0) Sample.ranking_db)
  = Raise OperationFailure.
Proof. vm_compute. reflexivity. Qed.

(** [float(x or 0)] keeps every float but the negative zero, which it
    turns into the positive one. *)
Lemma float_or_0_spec (x : float) :
  float_or_0 x = x ∨ (Prim2SF x = S754_zero true ∧ float_or_0 x = 0%float).
Proof.
  unfold float_or_0. rewrite FloatAxioms.eqb_spec.
  change (Prim2SF 0) with (S754_zero false).
  destruct (Prim2SF x) as [[|]|[|]| |[|] m e] eqn:Hx; simpl; auto.
  left. apply Prim2SF_inj. by rewrite Hx.
Qed.

(** ** Runs on the sample store *)

Lemma post_orders_server_fields_witness :
  let body := OrderBody.mk (with_status_total success 1 Sample.inv7) (Some 1) (Some 2) in
  let req := OrderBody.fields body in
  let out := OrderOut.mk "000000000000000000000002"
               (Some "https://pay.mock/tripay/000000000000000000000002"%string) 103000 in
  ∃ doc prod base,
    Sample.db2 = with_order (λ c, c ++ [doc]) Sample.db1 ∧
    OrderOut.id out = str_ObjectId (OrderDoc._id doc) ∧
    OrderDoc.status doc = pending ∧
    Some prod = find_one (λ p, Some (Product._id p) = ObjectId_of_str (Order.product_id req))
                  (product Sample.db1) ∧
    float_mul_int (Product.price prod) (Order.amount req) = Ok base ∧
    OrderDoc.total_price doc
      = round2 (order_total base (active_method (Order.payment_method_code req) Sample.db1)) ∧
    OrderDoc.created_at doc = 12 ∧
    OrderDoc.updated_at doc = 13 ∧
    ∀ s t ca ua,
      post_orders 12 13 (with_client_values s t ca ua body) Sample.db1 = (Ok out, Sample.db2).
Proof.
  apply (post_orders_server_fields 12 13
           (OrderBody.mk (with_status_total success 1 Sample.inv7) (Some 1) (Some 2))
           Sample.db1
           (OrderOut.mk "000000000000000000000002"
              (Some "https://pay.mock/tripay/000000000000000000000002"%string) 103000)
           Sample.db2).
  vm_compute. reflexivity.
Defined.

Lemma payment_webhook_frame_witness :
  same_but_order Sample.db3 Sample.db4 ∧
  Forall2 same_but_status_updated_at (order Sample.db3) (order Sample.db4) ∧
  ∃ ref m k o,
    Some "INV-7"%string = Some ref ∧
    match_order ref Sample.db3 = Some m ∧
    order Sample.db3 !! k = Some o ∧
    OrderDoc._id o = OrderDoc._id m ∧
    order Sample.db4 = <[k := OrderDoc.set_status paid 20 o]> (order Sample.db3).
Proof.
  apply (payment_webhook_frame 20 Sample.paid_inv7 None Sample.db3 true Sample.db4).
  vm_compute. reflexivity.
Defined.

Lemma payment_webhook_idempotent_witness :
  ∃ db2,
    payment_webhook 21 Sample.paid_inv7 None Sample.db4 = (Ok true, db2) ∧
    same_but_order Sample.db4 db2 ∧
    Forall2 same_but_updated_at (order Sample.db4) (order db2) ∧
    ∃ k o,
      order Sample.db4 !! k = Some o ∧
      OrderDoc.status o = paid ∧
      order db2 = <[k := OrderDoc.set_updated_at 21 o]> (order Sample.db4).
Proof.
  apply (payment_webhook_idempotent 20 21 Sample.paid_inv7 None Sample.db3 true Sample.db4).
  vm_compute. reflexivity.
Defined.

(** The example of the specification: "abc123" is the reference of no
    order and not a well-formed id. *)
Lemma payment_webhook_unknown_reference_witness :
  ∃ e, payment_webhook 20 (WebhookIn.mk (Some "abc123"%string) webhook_paid) None Sample.db3
         = (Raise e, Sample.db3) ∧ NotFound e.
Proof.
  apply (payment_webhook_unknown_reference 20
           (WebhookIn.mk (Some "abc123"%string) webhook_paid) None Sample.db3 "abc123").
  - reflexivity.
  - done.
  - intros o Ho. vm_compute in Ho.
    repeat (apply elem_of_cons in Ho as [->|Ho]); [done..|].
    by apply elem_of_nil in Ho.
  - intros o Ho. done.
Defined.

Lemma payment_webhook_missing_reference_witness :
  ∃ e, payment_webhook 20 (WebhookIn.mk None webhook_failed) None Sample.db3
         = (Raise e, Sample.db3) ∧ BadRequest e.
Proof.
  apply (payment_webhook_missing_reference 20 (WebhookIn.mk None webhook_failed) None
           Sample.db3); reflexivity.
Defined.

(** * Further properties *)

(** ** Outcomes of [create_order] *)

(** X1: [create_order] fails in three ways only, and a call that fails
    writes nothing: with "Invalid id" (400) when [ObjectId] rejects the
    product id, with "Product not found" (404) when no product has the
    id, and with [OverflowError] when the amount is too large for a
    float or, at [insert_one], for the 8 bytes the driver gives an
    [int].  A call that returns had an amount of at most 8 bytes, has
    appended exactly one order, under an id no stored order had, and
    returns that id. *)
Theorem create_order_outcomes created updated req db :
  match create_order created updated req db with
  | (Ok out, db') =>
      - 2 ^ 63 ≤ Order.amount req < 2 ^ 63 ∧
      ∃ doc, db' = with_order (λ c, c ++ [doc]) db ∧
             (OrderDoc._id doc ∉ OrderDoc._id <$> order db) ∧
             OrderOut.id out = str_ObjectId (OrderDoc._id doc)
  | (Raise e, db') =>
      db' = db ∧
      ((e = HTTPException 400 "Invalid id" ∧
        ObjectId_of_str (Order.product_id req) = None) ∨
       (e = HTTPException 404 "Product not found" ∧
        ∃ i, ObjectId_of_str (Order.product_id req) = Some i ∧
             i ∉ Product._id <$> product db) ∨
       (e = OverflowError ∧
        (float_of_int (Order.amount req) = Raise OverflowError ∨
         ¬ (- 2 ^ 63 ≤ Order.amount req < 2 ^ 63))))
  end.
Proof.
  unfold create_order, bind, lift, reads, raise, oid.
  destruct (ObjectId_of_str (Order.product_id req)) as [pid|] eqn:Hpid;
    [|split; [done|]; left; done].
  cbv beta iota.
  destruct (find_one (λ p, Product._id p = pid) (product db)) as [prod|] eqn:Hprod.
  - destruct (float_mul_int (Product.price prod) (Order.amount req)) as [base|e] eqn:Hbase.
    + destruct (int64 (Order.amount req)) eqn:Hamt.
      * assert (oid (Order.product_id req) = Ok pid) as Hoid by (unfold oid; by rewrite Hpid).
        pose proof (create_order_run created updated req db pid prod base Hoid Hprod Hbase Hamt)
          as Hrun.
        unfold create_order, bind, lift, reads, raise, oid in Hrun.
        rewrite Hpid in Hrun. cbv beta iota in Hrun. rewrite Hprod, Hbase in Hrun.
        cbv beta iota in Hrun. rewrite Hrun.
        split; [by apply int64_bounds|]. eexists. split_and!; [done| |].
        -- rewrite stored_order_id. apply new_ObjectId_fresh.
        -- by rewrite stored_order_id.
      * cbv beta iota. unfold insert_one_order. rewrite int64_amount, Hamt.
        split; [done|]. right. right. split; [done|]. right.
        intros Hb%int64_bounds. congruence.
    + split; [done|]. right. right.
      unfold float_mul_int in Hbase.
      destruct (float_of_int (Order.amount req)) as [a|e'] eqn:Ha; [done|].
      injection Hbase as ->.
      assert (e = OverflowError) as ->.
      { unfold float_of_int in Ha. destruct (is_infinity _); [|done]. by injection Ha. }
      split; [done|]. by left.
  - split; [done|]. right. left. split; [done|]. exists pid. split; [done|].
    intros (p & Hp & Hin)%list_elem_of_fmap.
    eapply find_one_None in Hprod; [|exact Hin]. by apply Hprod.
Qed.

Lemma mock_gateway_Some pm g :
  mock_gateway pm = Some g →
  ∃ m, pm = Some m ∧ PaymentMethod.gateway m = Some g ∧ (g = tripay ∨ g = tokopay).
Proof.
  destruct pm as [m|]; [|done]. simpl.
  destruct (PaymentMethod.gateway m) as [[| |]|] eqn:Hg; intros [= <-]; eauto.
Qed.

(** X2: when [create_order] returns, it returns a payment url exactly
    when the request's code resolves to an active payment method whose
    gateway is "tripay" or "tokopay"; the url is
    [https://pay.mock/<gateway>/<id>] for the returned id, and the
    stored order carries it.  Otherwise no url is returned, and the
    stored order keeps the [payment_url] of the request body. *)
Theorem create_order_payment_url created updated req db out db' :
  create_order created updated req db = (Ok out, db') →
  ∃ doc,
    db' = with_order (λ c, c ++ [doc]) db ∧
    match OrderOut.payment_url out with
    | Some u =>
        ∃ m g, active_method (Order.payment_method_code req) db = Some m ∧
               PaymentMethod.gateway m = Some g ∧ (g = tripay ∨ g = tokopay) ∧
               u = ("https://pay.mock/" ++ str_Gateway g ++ "/" ++ OrderOut.id out)%string ∧
               OrderDoc.payment_url doc = Some u
    | None =>
        mock_gateway (active_method (Order.payment_method_code req) db) = None ∧
        OrderDoc.payment_url doc = Order.payment_url req
    end.
Proof.
  intros Hrun.
  destruct (create_order_inv _ _ _ _ _ _ Hrun) as (pid & prod & base & Hpid & Hprod & Hbase & Hamt).
  rewrite (create_order_run created updated req db pid prod base Hpid Hprod Hbase Hamt) in Hrun.
  injection Hrun as <- <-. eexists. split; [done|]. simpl.
  unfold mock_url.
  destruct (mock_gateway (active_method (Order.payment_method_code req) db)) as [g|] eqn:Hg.
  - simpl. apply mock_gateway_Some in Hg as (m & Hm & Hgw & Hor).
    exists m, g. by split_and!.
  - done.
Qed.

Lemma create_order_payment_url_witness :
  ∃ doc,
    Sample.db2 = with_order (λ c, c ++ [doc]) Sample.db1 ∧
    ∃ m g, active_method (Some "qris"%string) Sample.db1 = Some m ∧
           PaymentMethod.gateway m = Some g ∧ (g = tripay ∨ g = tokopay) ∧
           "https://pay.mock/tripay/000000000000000000000002"%string
           = ("https://pay.mock/" ++ str_Gateway g ++ "/" ++ "000000000000000000000002")%string ∧
           OrderDoc.payment_url doc
           = Some "https://pay.mock/tripay/000000000000000000000002"%string.
Proof.
  apply (create_order_payment_url 12 13 Sample.inv7 Sample.db1
           (OrderOut.mk "000000000000000000000002"
              (Some "https://pay.mock/tripay/000000000000000000000002"%string) 103000)
           Sample.db2).
  vm_compute. reflexivity.
Defined.

(** ** Fees of zero *)

(** On a finite base other than zero, fees of zero add nothing. *)
Lemma with_fee_0 base s m e :
  Prim2SF base = S754_finite s m e → with_fee base 0 0 = base.
Proof.
  intros Hb. unfold with_fee. apply Prim2SF_inj.
  rewrite !add_spec, div_spec, mul_spec, Hb.
  change (Prim2SF 0) with (S754_zero false).
  change (Prim2SF 100) with (S754_finite false 7036874417766400 (-46)).
  reflexivity.
Qed.

(** X3: a payment method whose fees are both zero, the defaults of the
    schema, charges what an order without a method pays: for an amount
    from 1 to [2 ^ 63 - 1], when the product of price and amount is
    finite and not zero, [create_order] stores and returns it rounded
    to two decimals. *)
Theorem create_order_zero_fees created updated req db pid P M base s m e :
  oid (Order.product_id req) = Ok pid →
  find_one (λ p, Product._id p = pid) (product db) = Some P →
  active_method (Order.payment_method_code req) db = Some M →
  PaymentMethod.fee_percent M = 0%float →
  PaymentMethod.fee_flat M = 0%float →
  1 ≤ Order.amount req < 2 ^ 63 →
  float_mul_int (Product.price P) (Order.amount req) = Ok base →
  Prim2SF base = S754_finite s m e →
  ∃ out doc,
    create_order created updated req db = (Ok out, with_order (λ c, c ++ [doc]) db) ∧
    OrderOut.total_price out = round2 base ∧
    OrderDoc.total_price doc = round2 base.
Proof.
  intros Hpid HP HM Hpercent Hflat Hamt Hbase Hfin.
  assert (int64 (Order.amount req) = true) as Hint by (apply int64_nonneg; lia).
  pose proof (create_order_run created updated req db pid P base Hpid HP Hbase Hint) as Hrun.
  cbv zeta in Hrun. rewrite HM in Hrun. unfold order_total in Hrun.
  rewrite Hpercent, Hflat, (with_fee_0 base s m e Hfin) in Hrun.
  eexists _, _. split; [exact Hrun|]. split; [done|]. apply stored_order_total.
Qed.

Lemma create_order_zero_fees_witness :
  ∃ out doc,
    create_order 10 11 (Sample.req Sample.pid 3 (Some "cash"%string)) Sample.db0
      = (Ok out, with_order (λ c, c ++ [doc]) Sample.db0) ∧
    OrderOut.total_price out = round2 300000 ∧
    OrderDoc.total_price doc = round2 300000.
Proof.
  apply (create_order_zero_fees 10 11 (Sample.req Sample.pid 3 (Some "cash"%string))
           Sample.db0 0x656565656565656565656565%N Sample.prod Sample.cash 300000%float
           false 5153960755200000 (-34)); try reflexivity.
  simpl. lia.
Defined.

(** X4: the calculator with fees of zero, its defaults, returns a total
    equal to the base when the product of price and amount is finite
    and not zero. *)
Theorem calc_total_zero_fees price amount base s m e :
  float_mul_int price amount = Ok base →
  Prim2SF base = S754_finite s m e →
  calc_total (CalcIn.mk price amount 0 0) = Ok (CalcOut.mk (round2 base) (round2 base)).
Proof.
  intros Hbase Hfin. unfold calc_total. simpl. rewrite Hbase.
  by rewrite (with_fee_0 base s m e Hfin).
Qed.

Lemma calc_total_zero_fees_witness :
  calc_total (CalcIn.mk 100000 3 0 0) = Ok (CalcOut.mk (round2 300000) (round2 300000)).
Proof.
  apply (calc_total_zero_fees 100000 3 300000 false 5153960755200000 (-34)); reflexivity.
Defined.

(** ** Ids as strings *)

Lemma hex_digit_char (d : N) : (d < 16)%N → hex_digit (hex_char d) = Some d.
Proof.
  intros Hd. destruct d as [|p]; [done|].
  do 4 (destruct p as [p|p|]; try reflexivity; try lia).
Qed.

Lemma hex_space_char (d : N) : (d < 16)%N → hex_space (hex_char d) = false.
Proof.
  intros Hd. destruct d as [|p]; [done|].
  do 4 (destruct p as [p|p|]; try reflexivity; try lia).
Qed.

(** The bytes [fromhex] reads off the digits [hex_str] writes. *)
Lemma fromhex_hex_str (k len : nat) (v acc : N) (rest : string) :
  fromhex None len acc (hex_str (k + k) v rest)
  = fromhex None (len + k) (acc * 256 ^ N.of_nat k + v mod 256 ^ N.of_nat k)%N rest.
Proof.
  revert v rest. induction k as [|k IH]; intros v rest.
  - simpl. rewrite N.mod_1_r, Nat.add_0_r. f_equal. lia.
  - replace (S k + S k)%nat with (S (S (k + k))) by lia.
    cbn [hex_str]. rewrite IH. cbn [fromhex].
    rewrite hex_space_char, hex_digit_char by (apply N.mod_lt; lia).
    rewrite hex_digit_char by (apply N.mod_lt; lia).
    replace (len + S k)%nat with (S (len + k)) by lia. f_equal.
    assert (v / 16 / 16 = v / 256)%N as -> by (by rewrite N.Div0.div_div).
    assert (v mod 256 = v mod 16 + 16 * ((v / 16) mod 16))%N as Hbyte
      by (change 256%N with (16 * 16)%N; apply N.Div0.mod_mul_r).
    rewrite Nat2N.inj_succ, N.pow_succ_r'.
    rewrite (N.Div0.mod_mul_r v 256 (256 ^ N.of_nat k)). lia.
Qed.

Lemma length_hex_str (n : nat) (v : N) (rest : string) :
  String.length (hex_str n v rest) = (n + String.length rest)%nat.
Proof.
  revert v rest. induction n as [|n IH]; intros v rest; [done|].
  cbn [hex_str]. rewrite IH. simpl. lia.
Qed.

(** [ObjectId(str(i)) == i] *)
Lemma ObjectId_of_str_ObjectId (i : ObjectId) :
  twelve_bytes i → ObjectId_of_str (str_ObjectId i) = Some i.
Proof.
  intros Hi. unfold ObjectId_of_str, str_ObjectId.
  rewrite length_hex_str. simpl Nat.eqb. cbv iota.
  change 24%nat with (12 + 12)%nat. rewrite fromhex_hex_str.
  cbn [fromhex fmap option_fmap option_map fst snd].
  unfold ObjectId_of_bytes. f_equal.
  rewrite N.mul_0_l, N.add_0_l. simpl. apply N.mod_small. exact Hi.
Qed.

Lemma str_ObjectId_nonempty (i : ObjectId) : str_ObjectId i ≠ ""%string.
Proof.
  intros H. apply (f_equal String.length) in H.
  unfold str_ObjectId in H. rewrite length_hex_str in H. done.
Qed.

Lemma py_or_Some_nonempty (r : string) (q : option string) :
  r ≠ ""%string → py_or (Some r) q = Some r.
Proof. intros Hr%String.eqb_neq. unfold py_or. simpl. by rewrite Hr. Qed.

(** X5: the id [create_order] returns is a reference the webhook takes:
    when the new id is one of twelve bytes, and unless a stored order
    has that very string as its [payment_reference], a webhook call
    with the returned id succeeds and sets the status of the order just
    created, and of no other. *)
Theorem create_order_then_payment_webhook created updated req db out db1 now s q :
  create_order created updated req db = (Ok out, db1) →
  twelve_bytes (new_ObjectId (OrderDoc._id <$> order db)) →
  (∀ o, o ∈ order db1 → OrderDoc.payment_reference o ≠ Some (OrderOut.id out)) →
  ∃ doc,
    order db1 = order db ++ [doc] ∧
    payment_webhook now (WebhookIn.mk (Some (OrderOut.id out)) s) q db1
    = (Ok true,
       with_order (λ _, order db ++ [OrderDoc.set_status (Status_of_webhook s) now doc]) db1).
Proof.
  intros Hrun Hbytes Href.
  destruct (create_order_inv _ _ _ _ _ _ Hrun) as (pid & prod & base & Hpid & Hprod & Hbase & Hamt).
  rewrite (create_order_run created updated req db pid prod base Hpid Hprod Hbase Hamt) in Hrun.
  injection Hrun as <- <-. simpl in Href.
  set (i := new_ObjectId (OrderDoc._id <$> order db)) in *.
  set (doc := stored_order _ _ _ _ _ _ i) in *.
  assert (OrderDoc._id doc = i) as Hid by apply stored_order_id.
  assert (list_find (λ d, OrderDoc._id d = i) (order db ++ [doc])
          = Some (length (order db), doc)) as Hfind
    by (apply list_find_new_id; [done|apply new_ObjectId_fresh]).
  exists doc. split; [done|].
  rewrite (payment_webhook_run _ _ _ _ (str_ObjectId i));
    [|apply py_or_Some_nonempty, str_ObjectId_nonempty|apply str_ObjectId_nonempty].
  unfold match_order. simpl order.
  assert (find_one (λ d, OrderDoc.payment_reference d = Some (str_ObjectId i))
            (order db ++ [doc]) = None) as -> by (by apply find_one_None).
  rewrite ObjectId_of_str_ObjectId by done.
  unfold find_one at 1. rewrite Hfind. simpl.
  unfold update_one_order, writes, with_order. simpl. rewrite Hid, Hfind.
  by rewrite alter_new.
Qed.

Lemma create_order_then_payment_webhook_witness :
  ∃ doc,
    order Sample.db2 = order Sample.db1 ++ [doc] ∧
    payment_webhook 20 (WebhookIn.mk (Some "000000000000000000000002"%string) webhook_failed)
      None Sample.db2
    = (Ok true,
       with_order (λ _, order Sample.db1 ++ [OrderDoc.set_status failed 20 doc]) Sample.db2).
Proof.
  apply (create_order_then_payment_webhook 12 13 Sample.inv7 Sample.db1
           (OrderOut.mk "000000000000000000000002"
              (Some "https://pay.mock/tripay/000000000000000000000002"%string) 103000)
           Sample.db2 20 webhook_failed None).
  - vm_compute. reflexivity.
  - vm_compute. reflexivity.
  - intros o Ho. vm_compute in Ho.
    repeat (apply elem_of_cons in Ho as [->|Ho]); [done..|].
    by apply elem_of_nil in Ho.
Defined.

(** ** References and ids *)

(** X6: a non-empty reference in the body is looked up among the
    [payment_reference] values first, whatever the query parameter
    says: when stored orders carry it, the first of them is the one
    order the webhook changes, also when the reference is the id of
    another order. *)
Theorem payment_webhook_reference_before_id now ref s q db b :
  ref ≠ ""%string →
  unique_ids db →
  find_one (λ d, OrderDoc.payment_reference d = Some ref) (order db) = Some b →
  ∃ k,
    order db !! k = Some b ∧
    payment_webhook now (WebhookIn.mk (Some ref) s) q db
    = (Ok true,
       with_order (λ c, <[k := OrderDoc.set_status (Status_of_webhook s) now b]> c) db).
Proof.
  intros Hne Hnd Hb.
  assert (match_order ref db = Some b) as Hm by (unfold match_order; by rewrite Hb).
  destruct (payment_webhook_ok now (WebhookIn.mk (Some ref) s) q db ref b
              (py_or_Some_nonempty ref q Hne) Hne Hm) as (k & o & Hfind & Hrun).
  apply list_find_Some in Hfind as (Hk & Hid & _).
  assert (o = b) as ->
    by (eapply unique_ids_same_order; [done..|by eapply match_order_elem|done]).
  exists k. split; [done|]. rewrite Hrun. unfold with_order. simpl.
  by rewrite (alter_insert _ k _ b).
Qed.

(** ** What a sort followed by a limit keeps *)

Lemma merge_sort_take_top {A} (R : relation A) `{!∀ x y, Decision (R x y)}
    `{!Transitive R} `{!Total R} (l : list A) (n : nat) (x : A) :
  x ∈ l →
  x ∈ take n (merge_sort R l) ∨
  (length (take n (merge_sort R l)) = n ∧ ∀ y, y ∈ take n (merge_sort R l) → R y x).
Proof.
  apply sorted_take_top; [done|apply merge_sort_Permutation|by apply Sorted_merge_sort].
Qed.

Section ranking_more.
Context {Σ : Summation} {Ω : Sorting}.

(** *** The ranking reads two fields of an order *)

Lemma group_add_ext o o' gs :
  OrderDoc.product_id o = OrderDoc.product_id o' →
  OrderDoc.total_price o = OrderDoc.total_price o' →
  group_add o gs = group_add o' gs.
Proof.
  intros Hp Ht. induction gs as [|g gs IH]; simpl.
  - by rewrite Hp, Ht.
  - rewrite Hp, Ht. destruct (decide _); [done|]. by rewrite IH.
Qed.

Lemma group_stage_ext c c' :
  Forall2 (λ o o', OrderDoc.product_id o = OrderDoc.product_id o' ∧
                   OrderDoc.total_price o = OrderDoc.total_price o') c c' →
  group_stage c = group_stage c'.
Proof.
  intros Hcc. unfold group_stage. f_equal. generalize (@nil (Group.t sum_state)).
  induction Hcc as [|o o' c c' [Hp Ht] _ IH]; intros gs; [done|].
  simpl. rewrite (group_add_ext o o' gs Hp Ht). apply IH.
Qed.

Lemma top_entry_snd r db : snd (top_entry r db) = db.
Proof.
  rewrite top_entry_run. destruct (decide _); [done|].
  by destruct (ObjectId_of_str _).
Qed.

Lemma top_entry_product r db1 db2 :
  product db1 = product db2 → fst (top_entry r db1) = fst (top_entry r db2).
Proof.
  intros Hp. rewrite !top_entry_run. destruct (decide _); [done|].
  destruct (ObjectId_of_str _); [|done]. unfold entry_of. by rewrite Hp.
Qed.

Lemma for_each_top_entry_snd rs db : snd (for_each top_entry rs db) = db.
Proof.
  pose proof (for_each_top_entry rs db) as H.
  destruct (for_each top_entry rs db) as [[out|e] db']; by destruct H as [-> _].
Qed.

Lemma for_each_top_entry_product rs db1 db2 :
  product db1 = product db2 →
  fst (for_each top_entry rs db1) = fst (for_each top_entry rs db2).
Proof.
  intros Hp. induction rs as [|r rs IH]; [done|]. simpl. unfold bind at 1 3.
  pose proof (top_entry_snd r db1) as H1. pose proof (top_entry_snd r db2) as H2.
  pose proof (top_entry_product r db1 db2 Hp) as H12.
  destruct (top_entry r db1) as [[e1|x1] d1], (top_entry r db2) as [[e2|x2] d2];
    simpl in *; subst; try done.
  - injection H12 as ->. unfold bind, ret.
    destruct (for_each top_entry rs db1) as [[o1|y1] d1],
             (for_each top_entry rs db2) as [[o2|y2] d2]; simpl in *; congruence.
  - congruence.
Qed.

Lemma top_ranking_snd limit db : snd (top_ranking limit db) = db.
Proof.
  unfold top_ranking, bind, aggregate_order.
  destruct (limit_stage _ _); [|done]. apply for_each_top_entry_snd.
Qed.

(** The answer of [top_ranking] is the same on two stores with the same
    products whose orders, one by one, are of the same product at the
    same price. *)
Lemma top_ranking_ext limit db1 db2 :
  product db1 = product db2 →
  Forall2 (λ o o', OrderDoc.product_id o = OrderDoc.product_id o' ∧
                   OrderDoc.total_price o = OrderDoc.total_price o')
          (order db1) (order db2) →
  fst (top_ranking limit db1) = fst (top_ranking limit db2).
Proof.
  intros Hp Ho. unfold top_ranking, bind, aggregate_order.
  rewrite (group_stage_ext _ _ Ho).
  destruct (limit_stage _ _); [|done]. by apply for_each_top_entry_product.
Qed.

(** X7: a webhook call, answered or refused, does not move the ranking:
    [top_ranking] gives the same entries, or raises the same exception,
    before and after it; orders count whatever their status. *)
Theorem payment_webhook_keeps_top_ranking now payload q limit db :
  top_ranking limit (snd (payment_webhook now payload q db))
  = (fst (top_ranking limit db), snd (payment_webhook now payload q db)).
Proof.
  rewrite <- (top_ranking_snd limit (snd (payment_webhook now payload q db))) at 2.
  rewrite (surjective_pairing (top_ranking limit (snd _))) at 1. f_equal.
  destruct (payment_webhook now payload q db) as [[r|e] db'] eqn:Hrun; simpl.
  - destruct (payment_webhook_inv _ _ _ _ _ _ Hrun) as (ref & m & Href & Hne & Hm).
    destruct (payment_webhook_ok now payload q db ref m Href Hne Hm)
      as (k & o & _ & Heq).
    rewrite Heq in Hrun. injection Hrun as _ <-. symmetry.
    apply top_ranking_ext; [done|]. simpl. by apply Forall2_alter.
  - by rewrite (payment_webhook_raise _ _ _ _ _ _ Hrun).
Qed.

(** *** The ranking leaves out the products with the fewest orders *)


End ranking_more.

(** ** The delete routes *)

Section delete.
Context {A : Type} (C : Coll A).

Lemma delete_by_id_run (id : string) (db : DB) :
  delete_by_id C id db =
  match ObjectId_of_str id with
  | None => (Raise (HTTPException 400 "Invalid id"), db)
  | Some i =>
      match list_find (λ d, coll_id C d = i) (coll_get C db) with
      | Some (k, _) => (Ok true, coll_with C (delete k) db)
      | None => (Raise (HTTPException 404 "Not found"), db)
      end
  end.
Proof.
  unfold delete_by_id, bind, lift, oid, delete_one, raise, ret.
  destruct (ObjectId_of_str id) as [i|]; [|done].
  by destruct (list_find _ _) as [[k d]|].
Qed.

(** X9: a delete route refuses an id [ObjectId] rejects with 400 and an
    id no document of its collection has with 404, and then writes
    nothing; otherwise it removes the first document with that id, and
    only that one, from its collection. *)
Theorem delete_by_id_outcomes (id : string) (db : DB) :
  match delete_by_id C id db with
  | (Ok r, db') =>
      r = true ∧
      ∃ i k d, ObjectId_of_str id = Some i ∧
               coll_get C db !! k = Some d ∧ coll_id C d = i ∧
               (∀ j d', coll_get C db !! j = Some d' → (j < k)%nat → coll_id C d' ≠ i) ∧
               db' = coll_with C (delete k) db
  | (Raise e, db') =>
      db' = db ∧
      ((e = HTTPException 400 "Invalid id" ∧ ObjectId_of_str id = None) ∨
       (e = HTTPException 404 "Not found" ∧
        ∃ i, ObjectId_of_str id = Some i ∧ i ∉ coll_id C <$> coll_get C db))
  end.
Proof.
  rewrite delete_by_id_run.
  destruct (ObjectId_of_str id) as [i|] eqn:Hi.
  - destruct (list_find _ _) as [[k d]|] eqn:Hfind.
    + apply list_find_Some in Hfind as (Hk & Hd & Hfirst).
      split; [done|]. exists i, k, d. by split_and!.
    + split; [done|]. right. split; [done|]. exists i. split; [done|].
      rewrite list_find_None, Forall_forall in Hfind.
      intros (d & Hd & Hin)%list_elem_of_fmap. by apply (Hfind d).
  - split; [done|]. by left.
Qed.

Hypothesis coll_get_with : ∀ f db, coll_get C (coll_with C f db) = f (coll_get C db).

Lemma delete_lookup_ne {B} (c : list B) (k : nat) (x : B) :
  x ∈ delete k c → ∃ j, j ≠ k ∧ c !! j = Some x.
Proof.
  intros [j Hj]%list_elem_of_lookup_1.
  destruct (decide (j < k)%nat).
  - rewrite list_lookup_delete_lt in Hj by done. exists j. split; [lia|done].
  - rewrite list_lookup_delete_ge in Hj by lia. exists (S j). split; [lia|done].
Qed.

Lemma delete_unique_id (c : list A) (k : nat) (d : A) :
  NoDup (coll_id C <$> c) → c !! k = Some d →
  coll_id C d ∉ coll_id C <$> delete k c.
Proof.
  intros Hnd Hk (x & Hx & Hin)%list_elem_of_fmap.
  apply delete_lookup_ne in Hin as (j & Hjk & Hj). apply Hjk.
  apply (NoDup_lookup _ j k (coll_id C d) Hnd); rewrite list_lookup_fmap.
  - rewrite Hj. simpl. by rewrite Hx.
  - by rewrite Hk.
Qed.

(** X10: when the ids of the collection are unique, a document deleted
    is gone: the same delete again is refused with 404. *)
Theorem delete_by_id_twice (id : string) (db : DB) r db' :
  NoDup (coll_id C <$> coll_get C db) →
  delete_by_id C id db = (Ok r, db') →
  delete_by_id C id db' = (Raise (HTTPException 404 "Not found"), db').
Proof.
  intros Hnd Hrun. rewrite delete_by_id_run in Hrun. rewrite delete_by_id_run.
  destruct (ObjectId_of_str id) as [i|]; [|done].
  destruct (list_find _ (coll_get C db)) as [[k d]|] eqn:Hfind; [|done].
  injection Hrun as _ <-. rewrite coll_get_with.
  apply list_find_Some in Hfind as (Hk & Hd & _).
  destruct (list_find _ (delete k (coll_get C db))) as [[k' d']|] eqn:Hfind'; [|done].
  apply list_find_Some in Hfind' as (Hk' & Hd' & _). exfalso.
  apply (delete_unique_id _ k d Hnd Hk). rewrite Hd, <- Hd'.
  apply list_elem_of_fmap. exists d'. split; [done|]. by eapply list_elem_of_lookup_2.
Qed.

End delete.

(** The id of 24 characters with white space in it is one [ObjectId]
    takes and no product has: 404, not 400. *)
Example delete_product_spaced_id_not_found :
  delete_product "0a0a0a0a0a0a0a0a0a0a0a  " Sample.db3
  = (Raise (HTTPException 404 "Not found"), Sample.db3).
Proof. vm_compute. reflexivity. Qed.

(** ** Deleting a product *)

Lemma find_one_delete_other {A} (P : A → Prop) `{!∀ x, Decision (P x)}
    (k : nat) (c : list A) (d : A) :
  c !! k = Some d → ¬ P d → find_one P (delete k c) = find_one P c.
Proof.
  unfold find_one. revert k. induction c as [|x c IH]; intros [|k] Hk Hd; try done.
  - injection Hk as ->. simpl. rewrite decide_False by done.
    destruct (list_find P c) as [[i y]|]; done.
  - simpl in Hk. specialize (IH k Hk Hd).
    change (delete (S k) (x :: c)) with (x :: delete k c). simpl.
    destruct (decide (P x)); [done|].
    destruct (list_find P (delete k c)) as [[i y]|], (list_find P c) as [[i' y']|];
      simpl in *; congruence.
Qed.

Lemma delete_product_run (id : string) (db : DB) r db' :
  unique_product_ids db →
  delete_product id db = (Ok r, db') →
  ∃ i k d, ObjectId_of_str id = Some i ∧ product db !! k = Some d ∧ Product._id d = i ∧
           db' = with_product (delete k) db ∧
           find_one (λ p, Product._id p = i) (product db') = None ∧
           ∀ j, j ≠ i → find_one (λ p, Product._id p = j) (product db')
                        = find_one (λ p, Product._id p = j) (product db).
Proof.
  intros Hnd Hrun. unfold delete_product in Hrun. rewrite delete_by_id_run in Hrun.
  destruct (ObjectId_of_str id) as [i|]; [|done].
  destruct (list_find _ _) as [[k d]|] eqn:Hfind; [|done].
  injection Hrun as _ <-.
  apply list_find_Some in Hfind as (Hk & Hd & _). simpl in Hk, Hd.
  exists i, k, d. split_and!; try done.
  - apply find_one_None. simpl. intros x Hx Hxi.
    apply (delete_unique_id product_coll _ k d Hnd Hk). simpl. rewrite Hd, <- Hxi.
    apply list_elem_of_fmap. by exists x.
  - intros j Hj. simpl. apply (find_one_delete_other _ k _ d Hk). simpl. congruence.
Qed.

(** X11: deleting a product does not cascade.  The stored orders stay
    as they are, those of the product too; when product ids are unique,
    a new order for the deleted product is refused with 404 and writes
    nothing, and an order for any other product is answered as
    before. *)
Theorem delete_product_keeps_orders (id : string) (db : DB) r db' :
  unique_product_ids db →
  delete_product id db = (Ok r, db') →
  order db' = order db ∧
  ∀ created updated req,
    if decide (ObjectId_of_str (Order.product_id req) = ObjectId_of_str id)
    then create_order created updated req db'
         = (Raise (HTTPException 404 "Product not found"), db')
    else fst (create_order created updated req db')
         = fst (create_order created updated req db).
Proof.
  intros Hnd Hrun.
  destruct (delete_product_run id db r db' Hnd Hrun)
    as (i & k & d & Hi & Hk & Hd & -> & Hgone & Hother).
  split; [done|]. intros created updated req.
  destruct (decide _) as [Heq|Hne].
  - unfold create_order, bind, lift, reads, raise, oid. rewrite Heq, Hi.
    cbv beta iota. by rewrite Hgone.
  - destruct (ObjectId_of_str (Order.product_id req)) as [j|] eqn:Hj.
    + assert (j ≠ i) as Hji by congruence.
      unfold create_order, bind, lift, reads, raise, oid. rewrite Hj.
      cbv beta iota. rewrite (Hother j Hji).
      destruct (find_one _ (product db)) as [prod|]; [|done].
      destruct (float_mul_int _ _) as [base|]; [|done].
      cbv beta iota. unfold insert_one_order.
      change (order (with_product (delete k) db)) with (order db).
      change (active_method (Order.payment_method_code req) (with_product (delete k) db))
        with (active_method (Order.payment_method_code req) db).
      rewrite !int64_amount. destruct (int64 (Order.amount req)); [|done].
      destruct (mock_gateway _); done.
    + unfold create_order, bind, lift, oid. by rewrite Hj.
Qed.

Section ranking_delete.
Context {Σ : Summation} {Ω : Sorting}.

Lemma find_one_Some_id (j : ObjectId) (c : list Product.t) :
  find_one (λ p, Some (Product._id p) = Some j) c = find_one (λ p, Product._id p = j) c.
Proof.
  unfold find_one. f_equal. apply list_find_ext. intros p. split; congruence.
Qed.

Lemma top_entry_deleted id db r db' row :
  unique_product_ids db →
  delete_product id db = (Ok r, db') →
  top_entry row db' =
  (match fst (top_entry row db) with
   | Ok e => Ok (without_title id e)
   | Raise x => Raise x
   end, db').
Proof.
  intros Hnd Hrun.
  destruct (delete_product_run id db r db' Hnd Hrun)
    as (i & k & d & Hi & Hk & Hd & _ & Hgone & Hother).
  rewrite !top_entry_run. unfold without_title.
  destruct (decide (Group._id row = ""%string)) as [Hrow|Hrow]; simpl.
  - rewrite Hrow, Hi. by rewrite decide_False.
  - destruct (ObjectId_of_str (Group._id row)) as [j|] eqn:Hj; [|done]. simpl.
    rewrite Hj, Hi. unfold entry_of. rewrite Hj, !find_one_Some_id. f_equal.
    destruct (decide (Some j = Some i)) as [[= ->]|Hne].
    + rewrite Hgone. unfold untitled. done.
    + rewrite Hother by congruence. done.
Qed.

Lemma for_each_top_entry_deleted id db r db' rows :
  unique_product_ids db →
  delete_product id db = (Ok r, db') →
  for_each top_entry rows db' =
  (match fst (for_each top_entry rows db) with
   | Ok out => Ok (without_title id <$> out)
   | Raise x => Raise x
   end, db').
Proof.
  intros Hnd Hrun. induction rows as [|row rows IH]; [done|].
  simpl. unfold bind at 1 3.
  rewrite (top_entry_deleted id db r db' row Hnd Hrun).
  pose proof (top_entry_snd row db) as Hsnd.
  destruct (top_entry row db) as [[e|x] d]; simpl in *; subst; [|done].
  unfold bind, ret. rewrite IH.
  pose proof (for_each_top_entry_snd rows db) as Hsnd.
  destruct (for_each top_entry rows db) as [[out|x] d]; simpl in *; by subst.
Qed.

(** X12: a deleted product keeps its place in the ranking.  After a
    product is deleted, [top_ranking] answers as before, with the same
    entries in the same order, but the entries of that product have no
    title. *)
Theorem delete_product_untitles_top_ranking (id : string) (db : DB) r db' limit :
  unique_product_ids db →
  delete_product id db = (Ok r, db') →
  top_ranking limit db' =
  (match fst (top_ranking limit db) with
   | Ok out => Ok (without_title id <$> out)
   | Raise x => Raise x
   end, db').
Proof.
  intros Hnd Hrun.
  assert (order db' = order db) as Horder.
  { destruct (delete_product_run id db r db' Hnd Hrun) as (i & k & d & _ & _ & _ & -> & _).
    done. }
  unfold top_ranking, bind, aggregate_order. rewrite Horder.
  destruct (limit_stage _ _) as [rows|x]; [|done].
  by apply (for_each_top_entry_deleted id db r).
Qed.

End ranking_delete.

(** ** Fields no route reads *)

Lemma find_one_fmap {A} (P : A → Prop) `{!∀ x, Decision (P x)} (f : A → A) (c : list A) :
  (∀ x, P (f x) ↔ P x) → find_one P (f <$> c) = f <$> find_one P c.
Proof.
  intros Hf. unfold find_one. induction c as [|x c IH]; [done|].
  rewrite fmap_cons. simpl.
  destruct (decide (P (f x))) as [Hx|Hx], (decide (P x)) as [Hx'|Hx']; try done.
  - exfalso. apply Hx'. by apply Hf.
  - exfalso. apply Hx. by apply Hf.
  - destruct (list_find P (f <$> c)) as [[i y]|], (list_find P c) as [[i' y']|];
      simpl in *; congruence.
Qed.

(** X13: [create_order] does not look at the [is_active] of the
    product: whichever products are withdrawn or put back, an order is
    answered the same, with the same id, total and payment url, or
    refused the same. *)
Theorem create_order_ignores_product_is_active (active : Product.t → bool)
    created updated req db :
  fst (create_order created updated req
         (with_product (fmap (λ p, set_product_is_active (active p) p)) db))
  = fst (create_order created updated req db).
Proof.
  unfold create_order, bind, lift, reads, raise.
  destruct (oid (Order.product_id req)) as [pid|]; [|done]. simpl.
  rewrite (find_one_fmap _ (λ p, set_product_is_active (active p) p)) by done.
  destruct (find_one _ (product db)) as [prod|]; [|done]. simpl.
  destruct (float_mul_int _ _) as [base|]; [|done].
  cbv beta iota. unfold insert_one_order.
  change (order (with_product ?f db)) with (order db).
  change (active_method ?c (with_product ?f db)) with (active_method c db).
  rewrite !int64_amount. destruct (int64 (Order.amount req)); [|done].
  destruct (mock_gateway _); done.
Qed.

(** ** Logging in *)

Section login.
Variable sha256_hexdigest : string → string.

(** X14: [login] never writes.  It refuses an unknown address and a
    wrong password alike, with 401 "Invalid credentials".  When it
    answers, the first user with the address has the hash of the
    password, and the token is the digest of that user's id, which the
    answer carries too. *)
Theorem login_outcomes (payload : LoginIn.t) (db : DB) :
  match login sha256_hexdigest payload db with
  | (Ok out, db') =>
      db' = db ∧
      ∃ u, find_one (λ u, User.email u = LoginIn.email payload) (user db) = Some u ∧
           User.password_hash u = sha256_hexdigest (LoginIn.password payload) ∧
           LoginOut.id out = str_ObjectId (User._id u) ∧
           LoginOut.token out = sha256_hexdigest (LoginOut.id out) ∧
           LoginOut.name out = User.name u ∧
           LoginOut.level out = User.level u
  | (Raise e, db') =>
      db' = db ∧ e = HTTPException 401 "Invalid credentials" ∧
      ∀ u, find_one (λ u, User.email u = LoginIn.email payload) (user db) = Some u →
           User.password_hash u ≠ sha256_hexdigest (LoginIn.password payload)
  end.
Proof.
  unfold login, bind, reads, raise, ret, hash_password.
  destruct (find_one _ (user db)) as [u|] eqn:Hu.
  - destruct (decide _) as [Hne|Heq].
    + split_and!; try done. by intros u' [= <-].
    + apply dec_stable in Heq. split; [done|]. exists u. by split_and!.
  - by split_and!.
Qed.

(** X15: [login] does not look at [is_active]: whichever users are
    deactivated or reactivated, it answers the same. *)
Theorem login_ignores_is_active (active : User.t → bool) (payload : LoginIn.t) (db : DB) :
  fst (login sha256_hexdigest payload
         (with_user (fmap (λ u, set_is_active (active u) u)) db))
  = fst (login sha256_hexdigest payload db).
Proof.
  unfold login, bind, reads, raise, ret. simpl.
  rewrite (find_one_fmap _ (λ u, set_is_active (active u) u)) by done.
  destruct (find_one _ (user db)) as [u|]; [|done]. simpl.
  by destruct (decide _).
Qed.

End login.

(** ** Checking a game id *)

Lemma length_lstrip (s : string) : (String.length (lstrip s) ≤ String.length s)%nat.
Proof. induction s as [|c s IH]; simpl; [done|]. destruct (isspace c); simpl; lia. Qed.

Lemma length_rstrip (s : string) : (String.length (rstrip s) ≤ String.length s)%nat.
Proof.
  induction s as [|c s IH]; simpl; [done|].
  destruct (rstrip s); [destruct (isspace c)|]; simpl in *; lia.
Qed.

Lemma length_strip (s : string) : (String.length (strip s) ≤ String.length s)%nat.
Proof.
  unfold strip. pose proof (length_rstrip (lstrip s)). pose proof (length_lstrip s). lia.
Qed.

(** White space is all that [strip] takes off: nothing is left of a
    string of white space. *)
Lemma lstrip_blank (s : string) :
  Forall (λ c, isspace c = true) (list_ascii_of_string s) → lstrip s = ""%string.
Proof.
  induction s as [|c s IH]; simpl; [done|].
  intros [Hc Hs]%Forall_cons. rewrite Hc. by apply IH.
Qed.

Lemma substring_0_all (s : string) (m : nat) :
  (String.length s ≤ m)%nat → String.substring 0 m s = s.
Proof.
  revert m. induction s as [|c s IH]; intros [|m] Hm; simpl in *; try done; try lia.
  f_equal. apply IH. lia.
Qed.

Lemma substring_suffix (s : string) (k n : nat) :
  (k ≤ String.length s)%nat → (String.length s ≤ k + n)%nat →
  ∃ pre, s = (pre ++ String.substring k n s)%string ∧ String.length pre = k.
Proof.
  revert k. induction s as [|c s IH]; intros [|k] Hk Hn; simpl in Hk, Hn.
  - exists ""%string. by destruct n.
  - lia.
  - exists ""%string. by rewrite substring_0_all.
  - destruct (IH k ltac:(lia) ltac:(lia)) as (pre & Hpre & Hlen).
    exists (String c pre). simpl. split; [|by rewrite Hlen].
    change (String c s = String c (pre ++ String.substring k n s)%string).
    by rewrite <- Hpre.
Qed.

Lemma length_append (s t : string) :
  String.length (s ++ t) = (String.length s + String.length t)%nat.
Proof.
  induction s as [|c s IH]; [done|].
  change (S (String.length (s ++ t)) = S (String.length s + String.length t)).
  by rewrite IH.
Qed.

(** [s[-n:]] is the end of [s], [n] characters long when [s] has as many. *)
Lemma last_chars_suffix (n : nat) (s : string) :
  ∃ pre, s = (pre ++ last_chars n s)%string ∧
         String.length (last_chars n s) = (n `min` String.length s)%nat.
Proof.
  unfold last_chars.
  destruct (substring_suffix s (String.length s - n) n) as (pre & Hpre & Hlen); [lia..|].
  exists pre. split; [done|].
  apply (f_equal String.length) in Hpre. rewrite length_append in Hpre. lia.
Qed.

(** X16: [check_game_id] refuses an id exactly when fewer than three
    characters are left of it once the white space around it is
    stripped, so every id of fewer than three characters and every id
    of white space; the nickname of an id it takes is "Player-"
    followed by the last four characters of the id as sent, not
    stripped (all of them when it has three), and the game is
    echoed. *)
Theorem check_game_id_outcomes (payload : CheckIdIn.t) :
  let id := CheckIdIn.user_id payload in
  match check_game_id payload with
  | id_invalid message =>
      message = "ID terlalu pendek"%string ∧ (String.length (strip id) < 3)%nat
  | id_valid nickname game =>
      game = CheckIdIn.game payload ∧
      (3 ≤ String.length (strip id) ≤ String.length id)%nat ∧
      ∃ pre tail, id = (pre ++ tail)%string ∧
                  String.length tail = (4 `min` String.length id)%nat ∧
                  nickname = ("Player-" ++ tail)%string
  end.
Proof.
  intros id. unfold check_game_id. fold id.
  destruct (String.length (strip id) <? 3)%nat eqn:Hlen.
  - apply Nat.ltb_lt in Hlen. done.
  - apply Nat.ltb_ge in Hlen. split; [done|]. split.
    + split; [done|apply length_strip].
    + destruct (last_chars_suffix 4 id) as (pre & Hpre & Htail).
      by exists pre, (last_chars 4 id).
Qed.

(** X17: an id of white space only is refused, however long it is. *)
Theorem check_game_id_blank (payload : CheckIdIn.t) :
  Forall (λ c, isspace c = true) (list_ascii_of_string (CheckIdIn.user_id payload)) →
  check_game_id payload = id_invalid "ID terlalu pendek".
Proof.
  intros Hblank. unfold check_game_id, strip. by rewrite lstrip_blank.
Qed.

Lemma check_game_id_blank_witness :
  check_game_id (CheckIdIn.mk "mlbb" "     " None) = id_invalid "ID terlalu pendek".
Proof.
  apply (check_game_id_blank (CheckIdIn.mk "mlbb" "     " None)).
  repeat constructor.
Defined.

(** ** The overview *)

#[global] Instance created_desc_total : Total created_desc.
Proof. intros x y. unfold created_desc. lia. Qed.

#[global] Instance created_desc_trans : Transitive created_desc.
Proof. intros x y z. unfold created_desc. lia. Qed.

Lemma count_documents_all {A} (c : list A) :
  count_documents (λ _, True) c = Z.of_nat (length c).
Proof.
  unfold count_documents. f_equal. induction c as [|x c IH]; [done|].
  rewrite filter_cons_True by done. simpl. by rewrite IH.
Qed.

Lemma count_documents_snoc {A} (P : A → Prop) `{!∀ x, Decision (P x)} (c : list A) (d : A) :
  count_documents P (c ++ [d]) = count_documents P c + indicator (P d).
Proof.
  unfold count_documents, indicator. rewrite filter_app, length_app, filter_cons, filter_nil.
  destruct (decide (P d)); simpl; lia.
Qed.

Lemma count_documents_insert {A} (P : A → Prop) `{!∀ x, Decision (P x)}
    (c : list A) (k : nat) (d d' : A) :
  c !! k = Some d →
  count_documents P (<[k := d']> c) + indicator (P d)
  = count_documents P c + indicator (P d').
Proof.
  unfold count_documents, indicator. revert k.
  induction c as [|x c IH]; intros [|k] Hk; try done.
  - injection Hk as ->. simpl. rewrite !filter_cons.
    destruct (decide (P d)), (decide (P d')); simpl; lia.
  - simpl in Hk. specialize (IH k Hk).
    change (<[S k := d']> (x :: c)) with (x :: <[k := d']> c).
    rewrite !filter_cons. destruct (decide (P x)); simpl length; lia.
Qed.

Lemma count_documents_disjoint {A} (P Q : A → Prop)
    `{!∀ x, Decision (P x)} `{!∀ x, Decision (Q x)} (c : list A) :
  (∀ x, P x → Q x → False) →
  count_documents P c + count_documents Q c ≤ Z.of_nat (length c).
Proof.
  intros Hdisj. unfold count_documents. induction c as [|x c IH]; [done|].
  rewrite !filter_cons.
  destruct (decide (P x)) as [HP|], (decide (Q x)) as [HQ|]; simpl length; try lia.
  destruct (Hdisj x HP HQ).
Qed.

(** X18: [admin_overview] always answers and never writes.  Its four
    totals are the sizes of the collections; pending and paid orders
    together are no more than the orders.  Its recent orders are stored
    orders, each with its id as a string, at most ten and all of them
    when there are fewer, newest first; an order left out is no newer
    than any of them. *)
Theorem admin_overview_outcome (db : DB) :
  ∃ ov,
    admin_overview db = (Ok ov, db) ∧
    Overview.users ov = Z.of_nat (length (user db)) ∧
    Overview.products ov = Z.of_nat (length (product db)) ∧
    Overview.orders ov = Z.of_nat (length (order db)) ∧
    Overview.deposits ov = Z.of_nat (length (deposit db)) ∧
    0 ≤ Overview.pending_orders ov ∧ 0 ≤ Overview.paid_orders ov ∧
    Overview.pending_orders ov + Overview.paid_orders ov ≤ Overview.orders ov ∧
    length (Overview.recent_orders ov) = (10 `min` length (order db))%nat ∧
    Sorted recent_desc (Overview.recent_orders ov) ∧
    Forall (λ x, x.2 ∈ order db ∧ x.1 = str_ObjectId (OrderDoc._id x.2))
           (Overview.recent_orders ov) ∧
    ∀ o, o ∈ order db →
         o ∈ snd <$> Overview.recent_orders ov ∨
         Forall (λ x, OrderDoc.created_at o ≤ OrderDoc.created_at x.2)
                (Overview.recent_orders ov).
Proof.
  eexists. split; [reflexivity|].
  cbn [Overview.users Overview.products Overview.orders Overview.deposits
       Overview.pending_orders Overview.paid_orders Overview.recent_orders].
  rewrite !count_documents_all.
  split_and!; try done.
  - unfold count_documents. lia.
  - unfold count_documents. lia.
  - apply count_documents_disjoint. congruence.
  - unfold recent_orders. rewrite length_fmap, length_take.
    rewrite (Permutation_length (merge_sort_Permutation created_desc (order db))). lia.
  - unfold recent_orders. eapply Sorted_fmap with (R1 := created_desc); [done|].
    apply Sorted_take, Sorted_merge_sort, _.
  - unfold recent_orders. apply Forall_fmap, Forall_forall. intros o Ho. simpl.
    split; [|done]. apply elem_of_take in Ho as (i & Hi & _).
    apply list_elem_of_lookup_2 in Hi. by rewrite merge_sort_Permutation in Hi.
  - intros o Ho. unfold recent_orders. rewrite <- list_fmap_compose.
    destruct (merge_sort_take_top created_desc (order db) 10 o Ho) as [Hin|[_ Htop]].
    + left. apply list_elem_of_fmap. by exists o.
    + right. apply Forall_fmap, Forall_forall. intros x Hx. exact (Htop x Hx).
Qed.

Lemma admin_overview_run (db : DB) :
  ∃ ov, admin_overview db = (Ok ov, db) ∧
        Overview.users ov = count_documents (λ _, True) (user db) ∧
        Overview.products ov = count_documents (λ _, True) (product db) ∧
        Overview.orders ov = count_documents (λ _, True) (order db) ∧
        Overview.deposits ov = count_documents (λ _, True) (deposit db) ∧
        Overview.pending_orders ov
        = count_documents (λ o, OrderDoc.status o = pending) (order db) ∧
        Overview.paid_orders ov
        = count_documents (λ o, OrderDoc.status o = paid) (order db).
Proof. eexists. split; [reflexivity|]. by split_and!. Qed.

(** X19: the overview follows the orders: after [create_order] has
    answered, it counts one order more and one pending order more, and
    the other counts are as before. *)
Theorem create_order_then_admin_overview created updated req db out db' :
  create_order created updated req db = (Ok out, db') →
  ∃ ov ov',
    admin_overview db = (Ok ov, db) ∧
    admin_overview db' = (Ok ov', db') ∧
    Overview.orders ov' = Overview.orders ov + 1 ∧
    Overview.pending_orders ov' = Overview.pending_orders ov + 1 ∧
    Overview.paid_orders ov' = Overview.paid_orders ov ∧
    Overview.users ov' = Overview.users ov ∧
    Overview.products ov' = Overview.products ov ∧
    Overview.deposits ov' = Overview.deposits ov.
Proof.
  intros Hrun.
  destruct (create_order_inv _ _ _ _ _ _ Hrun) as (pid & prod & base & Hpid & Hprod & Hbase & Hamt).
  rewrite (create_order_run created updated req db pid prod base Hpid Hprod Hbase Hamt) in Hrun.
  injection Hrun as _ <-.
  set (doc := stored_order _ _ _ _ _ _ _).
  assert (OrderDoc.status doc = pending) as Hst by (subst doc; by destruct (mock_url _ _)).
  clearbody doc.
  destruct (admin_overview_run db) as (ov & Hov & Hu & Hp & Ho & Hd & Hpending & Hpaid).
  destruct (admin_overview_run (with_order (λ c, c ++ [doc]) db))
    as (ov' & Hov' & Hu' & Hp' & Ho' & Hd' & Hpending' & Hpaid').
  simpl in Hu', Hp', Ho', Hd', Hpending', Hpaid'.
  rewrite count_documents_snoc in Ho', Hpending', Hpaid'.
  unfold indicator in Ho', Hpending', Hpaid'. rewrite Hst in Hpending', Hpaid'.
  rewrite decide_True in Ho' by done. rewrite decide_True in Hpending' by done.
  rewrite decide_False in Hpaid' by done.
  exists ov, ov'. split_and!; [done|done|lia..].
Qed.

(** X20: the overview follows the webhook: after [payment_webhook] has
    answered, the number of orders is as before, and the pending and
    the paid counts have lost the order matched, which is counted again
    under the status of the call. *)
Theorem payment_webhook_then_admin_overview now payload q db r db' :
  payment_webhook now payload q db = (Ok r, db') →
  let s := Status_of_webhook (WebhookIn.status payload) in
  ∃ ov ov' ref m o,
    admin_overview db = (Ok ov, db) ∧
    admin_overview db' = (Ok ov', db') ∧
    py_or (WebhookIn.reference payload) q = Some ref ∧
    match_order ref db = Some m ∧
    o ∈ order db ∧ OrderDoc._id o = OrderDoc._id m ∧
    Overview.orders ov' = Overview.orders ov ∧
    Overview.pending_orders ov' + indicator (OrderDoc.status o = pending)
    = Overview.pending_orders ov + indicator (s = pending) ∧
    Overview.paid_orders ov' + indicator (OrderDoc.status o = paid)
    = Overview.paid_orders ov + indicator (s = paid).
Proof.
  intros Hrun s.
  destruct (payment_webhook_inv _ _ _ _ _ _ Hrun) as (ref & m & Href & Hne & Hm).
  destruct (payment_webhook_ok now payload q db ref m Href Hne Hm)
    as (k & o & Hfind & Heq).
  rewrite Heq in Hrun. injection Hrun as _ <-.
  apply list_find_Some in Hfind as (Hk & Hid & _).
  destruct (admin_overview_run db) as (ov & Hov & _ & _ & Ho & _ & Hpending & Hpaid).
  set (db' := with_order _ db).
  assert (order db' = <[k := OrderDoc.set_status s now o]> (order db)) as Horder
    by (subst db'; simpl; by apply alter_insert).
  destruct (admin_overview_run db') as (ov' & Hov' & _ & _ & Ho' & _ & Hpending' & Hpaid').
  rewrite Horder in Ho', Hpending', Hpaid'.
  exists ov, ov', ref, m, o. split_and!; try done.
  - by eapply list_elem_of_lookup_2.
  - by rewrite Ho', Ho, !count_documents_all, length_insert.
  - rewrite Hpending', Hpending.
    exact (count_documents_insert (λ o, OrderDoc.status o = pending) _ k o
             (OrderDoc.set_status s now o) Hk).
  - rewrite Hpaid', Hpaid.
    exact (count_documents_insert (λ o, OrderDoc.status o = paid) _ k o
             (OrderDoc.set_status s now o) Hk).
Qed.

(** ** Histories of requests *)

Lemma serve_all_ind (I : DB → Prop) :
  (∀ r db, I db → I (serve r db)) →
  ∀ rs db, I db → I (serve_all rs db).
Proof.
  intros Hstep rs. unfold serve_all.
  induction rs as [|r rs IH]; intros db Hdb; [done|].
  simpl. apply IH, Hstep, Hdb.
Qed.

Lemma delete_by_id_order {A} (C : Coll A) (id : string) (db : DB) :
  (∀ f db, order (coll_with C f db) = order db) →
  order (snd (delete_by_id C id db)) = order db.
Proof.
  intros Hframe. rewrite delete_by_id_run.
  destruct (ObjectId_of_str id); [|done].
  destruct (list_find _ _) as [[k d]|]; [|done]. apply Hframe.
Qed.

(** The four delete routes leave the orders alone. *)
Lemma serve_delete_order (r : Request) (db : DB) :
  match r with
  | PostOrders _ _ _ | PaymentWebhook _ _ _ => True
  | _ => order (serve r db) = order db
  end.
Proof. destruct r; try done; by apply delete_by_id_order. Qed.

Lemma post_orders_served created updated body db :
  Forall served_order (order db) →
  Forall served_order (order (snd (post_orders created updated body db))).
Proof.
  intros Hdb. unfold post_orders.
  destruct (Order.valid (OrderBody.fields body)) eqn:Hvalid; [|done].
  set (req := OrderBody.fields body) in *.
  destruct (create_order created updated req db) as [[out|e] db'] eqn:Hrun.
  - destruct (create_order_inv _ _ _ _ _ _ Hrun) as (pid & prod & base & Hpid & Hprod & Hbase & Hamt).
    rewrite (create_order_run created updated req db pid prod base Hpid Hprod Hbase Hamt) in Hrun.
    injection Hrun as _ <-. simpl. apply Forall_app. split; [done|].
    apply Forall_singleton. unfold oid in Hpid.
    destruct (ObjectId_of_str (Order.product_id req)) as [i|] eqn:Hi; [|done].
    unfold Order.valid in Hvalid. apply Z.leb_le in Hvalid.
    destruct (mock_url _ _); (split_and!; simpl; [done|by left|by rewrite Hi|done]).
  - by rewrite (create_order_raise _ _ _ _ _ _ Hrun).
Qed.

Lemma payment_webhook_served now payload q db :
  Forall served_order (order db) →
  Forall served_order (order (snd (payment_webhook now payload q db))).
Proof.
  intros Hdb.
  destruct (payment_webhook now payload q db) as [[r|e] db'] eqn:Hrun.
  - destruct (payment_webhook_inv _ _ _ _ _ _ Hrun) as (ref & m & Href & Hne & Hm).
    destruct (payment_webhook_ok now payload q db ref m Href Hne Hm)
      as (k & o & _ & Heq).
    rewrite Heq in Hrun. injection Hrun as _ <-. simpl.
    apply Forall_alter; [done|]. intros x _ (Hamount & _ & Hpid & Hprovider).
    split_and!; try done. simpl. unfold route_status.
    destruct (WebhookIn.status payload); simpl; auto.
  - by rewrite (payment_webhook_raise _ _ _ _ _ _ Hrun).
Qed.

Lemma serve_served (r : Request) (db : DB) :
  Forall served_order (order db) → Forall served_order (order (serve r db)).
Proof.
  intros Hdb. pose proof (serve_delete_order r db) as Hdel.
  destruct r; try (by rewrite Hdel).
  - by apply post_orders_served.
  - by apply payment_webhook_served.
Qed.

Lemma serve_unique_ids (r : Request) (db : DB) :
  unique_ids db → unique_ids (serve r db).
Proof.
  intros Hdb. pose proof (serve_delete_order r db) as Hdel.
  destruct r; try (unfold unique_ids; by rewrite Hdel).
  - simpl. unfold post_orders. destruct (Order.valid _); [|done].
    by apply create_order_unique_ids.
  - by apply payment_webhook_unique_ids.
Qed.

(** X21: whatever requests the writing routes are sent, answered or
    refused, the stored orders keep distinct ids, and every one of them
    has an amount of at least 1, one of the statuses "pending", "paid"
    and "failed", a well-formed product id and a provider, when this
    holds of the orders at the start, as it does when there are
    none. *)
Theorem serve_all_served_orders (rs : list Request) (db : DB) :
  unique_ids db →
  Forall served_order (order db) →
  unique_ids (serve_all rs db) ∧ Forall served_order (order (serve_all rs db)).
Proof.
  intros Hnd Hdb. revert db Hnd Hdb. unfold serve_all.
  induction rs as [|r rs IH]; intros db Hnd Hdb; [done|].
  simpl. apply IH; [by apply serve_unique_ids|by apply serve_served].
Qed.

Lemma served_product_ids_valid (db : DB) :
  Forall served_order (order db) → product_ids_valid db.
Proof.
  rewrite Forall_forall. intros Hdb o Ho [_ Hbad].
  destruct (Hdb o Ho) as (_ & _ & [i Hi] & _). congruence.
Qed.

Section history_ranking.
Context {Σ : Summation} {Ω : Sorting}.

(** X22: on a store whose orders all came in through the routes,
    [top_ranking] with a limit from 1 to [2 ^ 63 - 1] never fails,
    whatever requests were served, deletions of products included. *)
Theorem top_ranking_after_history (rs : list Request) (limit : option Z) (db : DB) :
  Forall served_order (order db) →
  0 < default 10 limit < 2 ^ 63 →
  ∃ out, top_ranking limit (serve_all rs db) = (Ok out, serve_all rs db).
Proof.
  intros Hdb Hlimit. apply top_ranking_returns; [|done].
  apply served_product_ids_valid.
  by apply (serve_all_ind (λ db, Forall served_order (order db)) serve_served).
Qed.

End history_ranking.

(** ** Calls of the webhook, one after the other *)

(** X23: a reference in the query string stands in for a missing or
    empty reference in the body: such a call does what the call with
    that reference in the body and none in the query string does. *)
Theorem payment_webhook_query_reference now payload q db :
  truthy (WebhookIn.reference payload) = false →
  payment_webhook now payload q db
  = payment_webhook now (WebhookIn.mk q (WebhookIn.status payload)) None db.
Proof.
  intros Hbody. unfold payment_webhook, py_or. rewrite Hbody. simpl.
  destruct q as [ref|]; [|done]. simpl.
  destruct (String.eqb ref "") eqn:Href; simpl; [done|].
  by rewrite Href.
Qed.

Lemma payment_webhook_query_reference_witness :
  payment_webhook 20 (WebhookIn.mk (Some ""%string) webhook_paid) (Some "INV-7"%string)
    Sample.db3
  = payment_webhook 20 (WebhookIn.mk (Some "INV-7"%string) webhook_paid) None Sample.db3.
Proof.
  apply (payment_webhook_query_reference 20 (WebhookIn.mk (Some ""%string) webhook_paid)
           (Some "INV-7"%string) Sample.db3).
  reflexivity.
Defined.

Lemma set_status_twice s1 now1 s2 now2 d :
  OrderDoc.set_status s2 now2 (OrderDoc.set_status s1 now1 d) = OrderDoc.set_status s2 now2 d.
Proof. reflexivity. Qed.

Lemma alter_alter (f g : OrderDoc.t → OrderDoc.t) (k : nat) (c : list OrderDoc.t) :
  (∀ d, g (f d) = g d) → alter g k (alter f k c) = alter g k c.
Proof.
  intros Hgf. revert k. induction c as [|x c IH]; intros [|k]; try done.
  - simpl. by rewrite Hgf.
  - simpl. f_equal. apply IH.
Qed.

(** X24: the last call of the webhook wins.  After any call for a
    reference, a second call for the same reference is answered, and
    leaves the store, exactly as if the first had not been made: no
    status is final, and nothing of the first call remains. *)
Theorem payment_webhook_last_wins now1 now2 p1 p2 q db :
  WebhookIn.reference p1 = WebhookIn.reference p2 →
  payment_webhook now2 p2 q (snd (payment_webhook now1 p1 q db))
  = payment_webhook now2 p2 q db.
Proof.
  intros Hsame.
  destruct (payment_webhook now1 p1 q db) as [[r|e] db1] eqn:Hrun; simpl;
    [|by rewrite (payment_webhook_raise _ _ _ _ _ _ Hrun)].
  destruct (payment_webhook_inv _ _ _ _ _ _ Hrun) as (ref & m & Href & Hne & Hm).
  destruct (payment_webhook_ok now1 p1 q db ref m Href Hne Hm) as (k & o & Hfind & Heq).
  rewrite Heq in Hrun. injection Hrun as _ <-.
  rewrite Hsame in Href.
  destruct (payment_webhook_ok now2 p2 q db ref m Href Hne Hm) as (k2 & o2 & Hfind2 & ->).
  assert (k2 = k) as -> by congruence.
  set (f1 := OrderDoc.set_status (Status_of_webhook (WebhookIn.status p1)) now1).
  set (f2 := OrderDoc.set_status (Status_of_webhook (WebhookIn.status p2)) now2).
  destruct (match_order_alter f1 k ref db m) as (m1 & Hm1 & Hid1); [done..|].
  destruct (payment_webhook_ok now2 p2 q (with_order (alter f1 k) db) ref m1 Href Hne Hm1)
    as (k1 & o1 & Hfind1 & ->).
  simpl in Hfind1. rewrite Hid1 in Hfind1.
  rewrite (list_find_alter _ f1 k) in Hfind1 by done.
  rewrite Hfind in Hfind1. simpl in Hfind1. injection Hfind1 as <- _.
  unfold with_order. simpl. f_equal. f_equal.
  apply alter_alter. intros d. apply set_status_twice.
Qed.

Lemma payment_webhook_last_wins_witness :
  payment_webhook 21 (WebhookIn.mk (Some "INV-7"%string) webhook_failed) None Sample.db4
  = payment_webhook 21 (WebhookIn.mk (Some "INV-7"%string) webhook_failed) None Sample.db3.
Proof.
  apply (payment_webhook_last_wins 20 21 Sample.paid_inv7
           (WebhookIn.mk (Some "INV-7"%string) webhook_failed) None Sample.db3).
  reflexivity.
Defined.

(** ** Deleting a user *)

Section login_delete.
Variable sha256_hexdigest : string → string.

(** X25: a deleted user cannot log in: when no two users share an
    address, after [admin_delete_user] has removed a user, [login]
    with that user's address is refused with 401, whatever the
    password. *)
Theorem admin_delete_user_then_login (id : string) (db : DB) r db' i u payload :
  NoDup (User.email <$> user db) →
  admin_delete_user id db = (Ok r, db') →
  ObjectId_of_str id = Some i →
  find_one (λ u, User._id u = i) (user db) = Some u →
  LoginIn.email payload = User.email u →
  login sha256_hexdigest payload db'
  = (Raise (HTTPException 401 "Invalid credentials"), db').
Proof.
  intros Hnd Hrun Hi Hu Hemail.
  unfold admin_delete_user in Hrun. rewrite delete_by_id_run, Hi in Hrun.
  unfold find_one in Hu. simpl in Hrun.
  destruct (list_find _ (user db)) as [[k d]|] eqn:Hfind; [|done].
  injection Hu as ->. injection Hrun as _ <-.
  apply list_find_Some in Hfind as (Hk & _ & _).
  unfold login, bind, reads, raise. simpl.
  assert (find_one (λ x, User.email x = LoginIn.email payload) (delete k (user db)) = None)
    as ->; [|done].
  apply find_one_None. intros x Hx Hxe.
  apply delete_lookup_ne in Hx as (j & Hjk & Hj). apply Hjk.
  apply (NoDup_lookup _ j k (User.email u) Hnd); rewrite list_lookup_fmap.
  - rewrite Hj. simpl. congruence.
  - by rewrite Hk.
Qed.

End login_delete.

(** ** Limits *)

Section ranking_limit.
Context {Σ : Summation} {Ω : Sorting}.

#[global] Instance counts_desc_trans : Transitive counts_desc.
Proof. intros a b c. unfold counts_desc. lia. Qed.

#[global] Instance counts_desc_antisymm : AntiSymm (=) counts_desc.
Proof. intros a b. unfold counts_desc. lia. Qed.

(** Under whatever limit the rows are sorted, their [orders] come in
    the same sequence. *)
Lemma sort_stage_orders (l1 l2 : Z) (gs : list (Group.t float)) :
  Group.orders <$> sort_stage l1 gs = Group.orders <$> sort_stage l2 gs.
Proof.
  apply (Sorted_unique counts_desc).
  - eapply Sorted_fmap with (R1 := orders_desc); [done|apply sort_rows_Sorted].
  - eapply Sorted_fmap with (R1 := orders_desc); [done|apply sort_rows_Sorted].
  - unfold sort_stage. by rewrite !sort_rows_Permutation.
Qed.

Lemma entries_orders rs out :
  Forall2 (λ r e, TopEntry.product_id e = Group._id r ∧
                  TopEntry.orders e = Group.orders r ∧
                  TopEntry.revenue e = round2 (float_or_0 (Group.revenue r))) rs out →
  TopEntry.orders <$> out = Group.orders <$> rs.
Proof.
  induction 1 as [|r e rs out (_ & Horders & _) _ IH]; [done|].
  rewrite !fmap_cons. by rewrite Horders, IH.
Qed.

Lemma top_ranking_orders (limit : Z) (db : DB) out db' :
  top_ranking (Some limit) db = (Ok out, db') →
  0 < limit ∧
  TopEntry.orders <$> out
  = take (Z.to_nat limit) (Group.orders <$> sort_stage limit (group_stage (order db))).
Proof.
  unfold top_ranking, bind, aggregate_order. simpl. intros Hrun.
  destruct (limit_stage limit _) as [res|e] eqn:Hlimit; [|done].
  apply limit_stage_Ok in Hlimit as (Hpos & _ & ->). split; [done|].
  pose proof (for_each_top_entry
                (take (Z.to_nat limit) (sort_stage limit (group_stage (order db)))) db) as Hloop.
  rewrite Hrun in Hloop. destruct Hloop as [_ Hloop].
  by rewrite <- fmap_take, (entries_orders _ _ Hloop).
Qed.

(** X26: a smaller limit gives the head of the same ranking, as far as
    the store fixes the ranking: when [top_ranking] answers for two
    limits, the order counts of the entries for the smaller limit are
    the first order counts of the entries for the larger, in whichever
    order the store sorts products with as many orders under either
    limit. *)
Theorem top_ranking_smaller_limit (n m : Z) (db : DB) out_n out_m db_n db_m :
  n ≤ m →
  top_ranking (Some n) db = (Ok out_n, db_n) →
  top_ranking (Some m) db = (Ok out_m, db_m) →
  TopEntry.orders <$> out_n = take (Z.to_nat n) (TopEntry.orders <$> out_m).
Proof.
  intros Hnm [Hn ->]%top_ranking_orders [Hm ->]%top_ranking_orders.
  rewrite take_take, Nat.min_l by lia.
  by rewrite (sort_stage_orders n m).
Qed.

End ranking_limit.

(** ** Runs on the scenarios *)

Lemma payment_webhook_reference_before_id_witness :
  ∃ k,
    order Scenario.db_shadow !! k = Some Scenario.shadow_doc ∧
    payment_webhook 40 (WebhookIn.mk (Some "000000000000000000000001"%string) webhook_paid)
      None Scenario.db_shadow
    = (Ok true,
       with_order (λ c, <[k := OrderDoc.set_status paid 40 Scenario.shadow_doc]> c)
         Scenario.db_shadow).
Proof.
  apply (payment_webhook_reference_before_id 40 "000000000000000000000001" webhook_paid None
           Scenario.db_shadow Scenario.shadow_doc).
  - done.
  - apply (bool_decide_unpack _). vm_compute. exact I.
  - vm_compute. reflexivity.
Defined.


Lemma delete_by_id_twice_witness :
  delete_product Sample.pid Scenario.db_deleted
  = (Raise (HTTPException 404 "Not found"), Scenario.db_deleted).
Proof.
  apply (delete_by_id_twice product_coll (λ f db, eq_refl) Sample.pid Sample.db3 true
           Scenario.db_deleted).
  - apply (bool_decide_unpack _). vm_compute. exact I.
  - vm_compute. reflexivity.
Defined.

Lemma delete_product_keeps_orders_witness :
  order Scenario.db_deleted = order Sample.db3 ∧
  ∀ created updated req,
    if decide (ObjectId_of_str (Order.product_id req) = ObjectId_of_str Sample.pid)
    then create_order created updated req Scenario.db_deleted
         = (Raise (HTTPException 404 "Product not found"), Scenario.db_deleted)
    else fst (create_order created updated req Scenario.db_deleted)
         = fst (create_order created updated req Sample.db3).
Proof.
  apply (delete_product_keeps_orders Sample.pid Sample.db3 true Scenario.db_deleted).
  - apply (bool_decide_unpack _). vm_compute. exact I.
  - vm_compute. reflexivity.
Defined.

Lemma delete_product_untitles_top_ranking_witness :
  top_ranking (Σ := ieee_sum) (Ω := merge_sorting) None Scenario.db_deleted
  = (match fst (top_ranking (Σ := ieee_sum) (Ω := merge_sorting) None Sample.db3) with
     | Ok out => Ok (without_title Sample.pid <$> out)
     | Raise x => Raise x
     end, Scenario.db_deleted).
Proof.
  apply (delete_product_untitles_top_ranking (Σ := ieee_sum) (Ω := merge_sorting)
           Sample.pid Sample.db3 true
           Scenario.db_deleted None).
  - apply (bool_decide_unpack _). vm_compute. exact I.
  - vm_compute. reflexivity.
Defined.

Lemma create_order_then_admin_overview_witness :
  ∃ ov ov',
    admin_overview Sample.db1 = (Ok ov, Sample.db1) ∧
    admin_overview Sample.db2 = (Ok ov', Sample.db2) ∧
    Overview.orders ov' = Overview.orders ov + 1 ∧
    Overview.pending_orders ov' = Overview.pending_orders ov + 1 ∧
    Overview.paid_orders ov' = Overview.paid_orders ov ∧
    Overview.users ov' = Overview.users ov ∧
    Overview.products ov' = Overview.products ov ∧
    Overview.deposits ov' = Overview.deposits ov.
Proof.
  apply (create_order_then_admin_overview 12 13 Sample.inv7 Sample.db1
           (OrderOut.mk "000000000000000000000002"
              (Some "https://pay.mock/tripay/000000000000000000000002"%string) 103000)
           Sample.db2).
  vm_compute. reflexivity.
Defined.

Lemma payment_webhook_then_admin_overview_witness :
  ∃ ov ov' ref m o,
    admin_overview Sample.db3 = (Ok ov, Sample.db3) ∧
    admin_overview Sample.db4 = (Ok ov', Sample.db4) ∧
    Some "INV-7"%string = Some ref ∧
    match_order ref Sample.db3 = Some m ∧
    o ∈ order Sample.db3 ∧ OrderDoc._id o = OrderDoc._id m ∧
    Overview.orders ov' = Overview.orders ov ∧
    Overview.pending_orders ov' + indicator (OrderDoc.status o = pending)
    = Overview.pending_orders ov + indicator (paid = pending) ∧
    Overview.paid_orders ov' + indicator (OrderDoc.status o = paid)
    = Overview.paid_orders ov + indicator (paid = paid).
Proof.
  apply (payment_webhook_then_admin_overview 20 Sample.paid_inv7 None Sample.db3 true
           Sample.db4).
  vm_compute. reflexivity.
Defined.

Lemma serve_all_served_orders_witness :
  unique_ids (serve_all Scenario.history Sample.db0) ∧
  Forall served_order (order (serve_all Scenario.history Sample.db0)).
Proof.
  apply (serve_all_served_orders Scenario.history Sample.db0).
  - apply NoDup_nil_2.
  - apply Forall_nil_2.
Defined.

Lemma top_ranking_after_history_witness :
  ∃ out, top_ranking (Σ := ieee_sum) (Ω := merge_sorting) (Some 3)
           (serve_all Scenario.history Sample.db0)
         = (Ok out, serve_all Scenario.history Sample.db0).
Proof.
  apply (top_ranking_after_history (Σ := ieee_sum) (Ω := merge_sorting) Scenario.history
           (Some 3) Sample.db0).
  - apply Forall_nil_2.
  - simpl. lia.
Defined.

Lemma admin_delete_user_then_login_witness :
  login Scenario.digest (LoginIn.mk "alice@example.com" "secret")
    (snd (admin_delete_user "000000000000000000000001" Scenario.db_members))
  = (Raise (HTTPException 401 "Invalid credentials"),
     snd (admin_delete_user "000000000000000000000001" Scenario.db_members)).
Proof.
  apply (admin_delete_user_then_login Scenario.digest "000000000000000000000001"
           Scenario.db_members true
           (snd (admin_delete_user "000000000000000000000001" Scenario.db_members))
           1%N Scenario.alice (LoginIn.mk "alice@example.com" "secret")).
  - apply (bool_decide_unpack _). vm_compute. exact I.
  - vm_compute. reflexivity.
  - vm_compute. reflexivity.
  - vm_compute. reflexivity.
  - reflexivity.
Defined.

Lemma top_ranking_smaller_limit_witness :
  TopEntry.orders <$> [TopEntry.mk Sample.pid (Some "Diamonds"%string) 1 100000%float]
  = take (Z.to_nat 1)
      (TopEntry.orders <$>
         [TopEntry.mk Sample.pid (Some "Diamonds"%string) 1 100000%float;
          TopEntry.mk Sample.cheap_pid (Some "Sticker"%string) 1 0%float]).
Proof.
  apply (top_ranking_smaller_limit (Σ := ieee_sum) (Ω := merge_sorting) 1 2 Scenario.db_tie
           [TopEntry.mk Sample.pid (Some "Diamonds"%string) 1 100000%float]
           [TopEntry.mk Sample.pid (Some "Diamonds"%string) 1 100000%float;
            TopEntry.mk Sample.cheap_pid (Some "Sticker"%string) 1 0%float]
           Scenario.db_tie Scenario.db_tie).
  - lia.
  - vm_compute. reflexivity.
  - vm_compute. reflexivity.
Defined.
